(** * cesium-wind-layer: the WindLayer class

    A shallow embedding of [packages/cesium-wind-layer/src/index.ts]: the
    wind-field normalisation ([processWindData]), the point query
    ([getDataAtLonLat]), the viewport tracker ([updateViewerParameters]) and
    the life cycle of the layer ([updateWindData], [updateOptions],
    [destroy], the event listeners).

    Numbers.  A JavaScript number is modelled as a real, so the rounding of
    binary64 arithmetic, its overflow and signed zeros are outside the model.
    Samples read from the typed arrays, and everything computed from them,
    live in [number], which adds [NaN] and the two infinities: the program
    itself produces [NaN] when it reads past the end of an array
    ([undefined] becomes [NaN] in arithmetic) and an infinity when it stores
    a large value into a [Float32Array].  That store is modelled: it rounds
    to binary32, to the nearest with ties to even; what it rounds here is
    the exact value of the expression, and in the program its binary64
    value.  Geographic metadata
    (bounds, query coordinates, projected screen corners) are plain reals.
    Division is real division; the source only divides by [east - west] and
    [north - south], and the results that go through a quotient are stated
    for bounds with [west < east] and [south < north].  The grid coordinates
    [xNorm] and [yNorm] of a query are exact quotients here and rounded ones
    in the program, where a coordinate can fall just below an integer that
    the exact one reaches: the statements that name the cell of a query away
    from the corners of the bounds are about [queryGrid], the result as a
    function of the coordinates that the query has computed. *)

From Stdlib Require Import String.
From Stdlib Require Import Reals Lra Lia ZArith List Bool.
Import ListNotations.

Local Open Scope R_scope.

(** ** JavaScript numbers, [Math] and array reads *)

Module Js.

(** [Inf true] is [-Infinity] and [Inf false] is [Infinity]. *)
Inductive number : Type :=
| Num (r : R)
| Inf (negative : bool)
| NaN.

(** [Infinity * y] for a real [y]: [NaN] when [y] is zero. *)
Definition infTimes (negative : bool) (y : R) : number :=
  if Req_dec_T y 0 then NaN
  else Inf (if Rlt_dec y 0 then negb negative else negative).

Definition add (a b : number) : number :=
  match a, b with
  | Num x, Num y => Num (x + y)
  | Inf s, Num _ => Inf s
  | Num _, Inf s => Inf s
  | Inf s, Inf t => if Bool.eqb s t then Inf s else NaN
  | _, _ => NaN
  end.

Definition mul (a b : number) : number :=
  match a, b with
  | Num x, Num y => Num (x * y)
  | Inf s, Num y => infTimes s y
  | Num x, Inf s => infTimes s x
  | Inf s, Inf t => Inf (xorb s t)
  | _, _ => NaN
  end.

(** [Math.min] and [Math.max] return [NaN] as soon as one argument is. *)
Definition min (a b : number) : number :=
  match a, b with
  | NaN, _ => NaN
  | _, NaN => NaN
  | Num x, Num y => Num (Rmin x y)
  | Inf true, _ => Inf true
  | _, Inf true => Inf true
  | Inf false, y => y
  | x, Inf false => x
  end.

Definition max (a b : number) : number :=
  match a, b with
  | NaN, _ => NaN
  | _, NaN => NaN
  | Num x, Num y => Num (Rmax x y)
  | Inf false, _ => Inf false
  | _, Inf false => Inf false
  | Inf true, y => y
  | x, Inf true => x
  end.

(** [Math.sqrt]: [NaN] on a negative argument. *)
Definition sqrt (a : number) : number :=
  match a with
  | Num x => if Rlt_dec x 0 then NaN else Num (R_sqrt.sqrt x)
  | Inf false => Inf false
  | Inf true => NaN
  | NaN => NaN
  end.

(** [a !== 0]: [NaN] and the infinities are different from zero. *)
Definition neq0 (a : number) : bool :=
  match a with
  | Num x => if Req_dec_T x 0 then false else true
  | Inf _ => true
  | NaN => true
  end.

(** [Number.MAX_VALUE] is (2^53 - 1) * 2^971 and [Number.MIN_VALUE] is
    2^-1074, the smallest positive double. *)
Definition MAX_VALUE : R := IZR (2 ^ 1024 - 2 ^ 971).
Definition MIN_VALUE : R := / IZR (2 ^ 1074).

(** [Math.floor] on a real, as an integer. *)
Definition floor (x : R) : Z := Int_part x.

(** [a[i]] for a natural index: [None] is [undefined]. *)
Definition read {A : Type} (a : list A) (i : nat) : option A := nth_error a i.

(** [a[i]] for an integer-valued index; a negative index is not an element. *)
Definition readZ {A : Type} (a : list A) (i : Z) : option A :=
  if (i <? 0)%Z then None else nth_error a (Z.to_nat i).

(** [undefined] used as an operand of arithmetic, of [Math.min] or of
    [Math.max] is [NaN]. *)
Definition toNumber (v : option number) : number :=
  match v with
  | Some n => n
  | None => NaN
  end.

(** [a[i] = v] on a typed array: a write outside the array is dropped. *)
Fixpoint store {A : Type} (a : list A) (i : nat) (v : A) : list A :=
  match a, i with
  | [], _ => []
  | _ :: t, O => v :: t
  | h :: t, S j => h :: store t j v
  end.

(** *** The store into a [Float32Array] *)

(** A value whose magnitude reaches (2 - 2^-24) * 2^127, half-way between
    the largest binary32 number and 2^128, is stored as an infinity. *)
Definition F32_OVERFLOW : R := IZR (2 ^ 128 - 2 ^ 103).

(** The spacing of the binary32 numbers around a magnitude [a] below 2^128:
    2^(e-23) when 2^e <= a < 2^(e+1) for an exponent [e] from 127 down to
    -126, and 2^-149, the spacing of the subnormal numbers, below 2^-126.
    [n] counts the exponents that are left to try. *)
Fixpoint f32ulpFrom (n : nat) (e : Z) (a : R) : R :=
  match n with
  | O => powerRZ 2 (-149)
  | S n' =>
      if Rle_dec (powerRZ 2 e) a then powerRZ 2 (e - 23)
      else f32ulpFrom n' (e - 1) a
  end.

Definition f32ulp (a : R) : R := f32ulpFrom 254 127 a.

(** The nearest integer, the even one of the two at a tie. *)
Definition roundEven (k : R) : Z :=
  let n := floor k in
  if Rlt_dec (k - IZR n) (1 / 2) then n
  else if Rlt_dec (1 / 2) (k - IZR n) then (n + 1)%Z
  else if Z.even n then n else (n + 1)%Z.

(** The binary32 number nearest to a real below the overflow threshold. *)
Definition f32round (x : R) : R :=
  IZR (roundEven (x / f32ulp (Rabs x))) * f32ulp (Rabs x).

(** [Math.fround], the conversion that a store into a [Float32Array]
    applies. *)
Definition fround (a : number) : number :=
  match a with
  | Num x =>
      if Rle_dec F32_OVERFLOW (Rabs x)
      then Inf (if Rlt_dec x 0 then true else false)
      else Num (f32round x)
  | Inf s => Inf s
  | NaN => NaN
  end.

(** [a[i] = v] on a [Float32Array]. *)
Definition storeF32 (a : list number) (i : nat) (v : number) : list number :=
  store a i (fround v).

End Js.

Import Js.

(** ** The data model (the declarations of [types.ts], as [index.ts] uses them) *)

(** One axis of the field: the samples, row-major, and the cached range.
    The source reads [array.length] and [array[i]] without a test, so the
    array is a mandatory member; [min] and [max] are the optional ones. *)
Record Axis : Type := mkAxis {
  array : list number;
  min : option number;
  max : option number
}.

Record Bounds : Type := mkBounds {
  west : R;
  south : R;
  east : R;
  north : R
}.

(** [WindData] has [speed] and [mask] optional; [Required<WindData>] has
    them mandatory.  [F] is [option] for the first and the identity for the
    second. *)
Record WindDataOf (F : Type -> Type) : Type := mkWindData {
  u : Axis;
  v : Axis;
  speed : F Axis;
  mask : F Axis;
  width : Z;
  height : Z;
  bounds : Bounds
}.

Arguments mkWindData {F}.
Arguments u {F}.
Arguments v {F}.
Arguments speed {F}.
Arguments mask {F}.
Arguments width {F}.
Arguments height {F}.
Arguments bounds {F}.

Definition Present (A : Type) : Type := A.

Definition WindData : Type := WindDataOf option.
Definition RequiredWindData : Type := WindDataOf Present.

(** A [Required<WindData>] used where a [WindData] is expected. *)
Definition asWindData (w : RequiredWindData) : WindData :=
  mkWindData (u w) (v w) (Some (speed w)) (Some (mask w))
             (width w) (height w) (bounds w).

(** ** processWindData *)

(** [windData.speed?.min === undefined || windData.speed?.max === undefined
    || windData.speed.array === undefined].  The last test never holds for a
    value of the declared type. *)
Definition speedIncomplete (w : WindData) : bool :=
  match speed w with
  | None => true
  | Some s =>
      match min s, max s with
      | Some _, Some _ => false
      | _, _ => true
      end
  end.

(** The state of the loop that derives the speed axis. *)
Record SpeedAcc : Type := mkSpeedAcc {
  acc_array : list number;
  acc_min : number;
  acc_max : number
}.

(** One iteration of the loop body at index [i]. *)
Definition speedStep (ua va : list number) (acc : SpeedAcc) (i : nat) : SpeedAcc :=
  let ui := toNumber (read ua i) in
  let vi := toNumber (read va i) in
  let arr := storeF32 (acc_array acc) i (Js.sqrt (add (mul ui ui) (mul vi vi))) in
  let si := toNumber (read arr i) in
  if neq0 si
  then mkSpeedAcc arr (Js.min (acc_min acc) si) (Js.max (acc_max acc) si)
  else mkSpeedAcc arr (acc_min acc) (acc_max acc).

(** [for (let i = 0; i < windData.u.array.length; i++) ...] from the fresh
    [Float32Array], [Number.MAX_VALUE] and [Number.MIN_VALUE]. *)
Definition deriveSpeed (ua va : list number) : Axis :=
  let n := length ua in
  let acc := fold_left (speedStep ua va) (seq 0 n)
               (mkSpeedAcc (repeat (Num 0) n) (Num MAX_VALUE) (Num MIN_VALUE)) in
  mkAxis (acc_array acc) (Some (acc_min acc)) (Some (acc_max acc)).

(** The scan of a provided mask that lacks its range. *)
Definition maskRange (ma : list number) : number * number :=
  fold_left
    (fun mm i =>
       (Js.min (fst mm) (toNumber (read ma i)),
        Js.max (snd mm) (toNumber (read ma i))))
    (seq 0 (length ma)) (Num MAX_VALUE, Num MIN_VALUE).

Definition processMask (w : WindData) : Axis :=
  match mask w with
  | None => mkAxis (repeat (Num 1) (length (array (u w)))) (Some (Num 1)) (Some (Num 1))
  | Some m =>
      match min m, max m with
      | Some _, Some _ => m
      | _, _ =>
          let mm := maskRange (array m) in
          mkAxis (array m) (Some (fst mm)) (Some (snd mm))
      end
  end.

Definition processSpeed (w : WindData) : Axis :=
  match speed w with
  | Some s =>
      if speedIncomplete w then deriveSpeed (array (u w)) (array (v w)) else s
  | None => deriveSpeed (array (u w)) (array (v w))
  end.

Definition processWindData (w : WindData) : RequiredWindData :=
  mkWindData (u w) (v w) (processSpeed w) (processMask w)
             (width w) (height w) (bounds w).

(** ** getDataAtLonLat *)

(** The [{u, v, speed}] triple of a query result. *)
Record Triple (A : Type) : Type := mkTriple {
  pt_u : A;
  pt_v : A;
  pt_speed : A
}.

Arguments mkTriple {A}.
Arguments pt_u {A}.
Arguments pt_v {A}.
Arguments pt_speed {A}.

(** [WindDataAtLonLat]: the members of [original] are array elements, which
    are [undefined] ([None]) when the index is not one of the array. *)
Record WindDataAtLonLat : Type := mkWindDataAtLonLat {
  original : Triple (option number);
  interpolated : Triple number
}.

(** The test that sends a query outside the bounds to [null]. *)
Definition outOfBounds (b : Bounds) (lon lat : R) : bool :=
  if Rlt_dec lon (west b) then true
  else if Rgt_dec lon (east b) then true
  else if Rlt_dec lat (south b) then true
  else if Rgt_dec lat (north b) then true
  else false.

(** The grid coordinates of a query, as exact reals. *)
Definition xNorm (w : RequiredWindData) (lon : R) : R :=
  (lon - west (bounds w)) / (east (bounds w) - west (bounds w)) * IZR (width w - 1).

Definition yNorm (w : RequiredWindData) (flipY : bool) (lat : R) : R :=
  let y := (lat - south (bounds w)) / (north (bounds w) - south (bounds w))
           * IZR (height w - 1) in
  if flipY then IZR (height w) - 1 - y else y.

(** [(1 - wx) * (1 - wy) * s00 + wx * (1 - wy) * s10 + (1 - wx) * wy * s01
    + wx * wy * s11]. *)
Definition bilinear (wx wy : R) (s00 s10 s01 s11 : number) : number :=
  add (add (add (mul (Num ((1 - wx) * (1 - wy))) s00)
                (mul (Num (wx * (1 - wy))) s10))
           (mul (Num ((1 - wx) * wy)) s01))
      (mul (Num (wx * wy)) s11).

(** The bilinear interpolation of one axis at the four surrounding cells. *)
Definition interpAxis (a : list number) (wd : Z) (x0 x1 y0 y1 : Z) (wx wy : R) : number :=
  bilinear wx wy
    (toNumber (readZ a (y0 * wd + x0)))
    (toNumber (readZ a (y0 * wd + x1)))
    (toNumber (readZ a (y1 * wd + x0)))
    (toNumber (readZ a (y1 * wd + x1))).

(** [None] is [null]. *)
Definition getDataAtLonLat (w : RequiredWindData) (flipY : bool) (lon lat : R)
  : option WindDataAtLonLat :=
  if outOfBounds (bounds w) lon lat then None
  else
    let xn := xNorm w lon in
    let yn := yNorm w flipY lat in
    let x := floor xn in
    let y := floor yn in
    let x0 := floor xn in
    let x1 := Z.min (x0 + 1) (width w - 1) in
    let y0 := floor yn in
    let y1 := Z.min (y0 + 1) (height w - 1) in
    let wx := xn - IZR x0 in
    let wy := yn - IZR y0 in
    let index := (y * width w + x)%Z in
    let uInterp := interpAxis (array (u w)) (width w) x0 x1 y0 y1 wx wy in
    let vInterp := interpAxis (array (v w)) (width w) x0 x1 y0 y1 wx wy in
    let interpolatedSpeed := Js.sqrt (add (mul uInterp uInterp) (mul vInterp vInterp)) in
    Some (mkWindDataAtLonLat
            (mkTriple (readZ (array (u w)) index)
                      (readZ (array (v w)) index)
                      (readZ (array (speed w)) index))
            (mkTriple uInterp vInterp interpolatedSpeed)).

(** The statements of [getDataAtLonLat] that follow the computation of
    [xNorm] and [yNorm], as a function of the two grid coordinates that the
    program has computed: the floor, the four cells, the weights, the reads
    and the interpolation. *)
Definition queryGrid (w : RequiredWindData) (xn yn : R) : WindDataAtLonLat :=
  let x := floor xn in
  let y := floor yn in
  let x0 := floor xn in
  let x1 := Z.min (x0 + 1) (width w - 1) in
  let y0 := floor yn in
  let y1 := Z.min (y0 + 1) (height w - 1) in
  let wx := xn - IZR x0 in
  let wy := yn - IZR y0 in
  let index := (y * width w + x)%Z in
  let uInterp := interpAxis (array (u w)) (width w) x0 x1 y0 y1 wx wy in
  let vInterp := interpAxis (array (v w)) (width w) x0 x1 y0 y1 wx wy in
  let interpolatedSpeed := Js.sqrt (add (mul uInterp uInterp) (mul vInterp vInterp)) in
  mkWindDataAtLonLat
    (mkTriple (readZ (array (u w)) index)
              (readZ (array (v w)) index)
              (readZ (array (speed w)) index))
    (mkTriple uInterp vInterp interpolatedSpeed).

(** ** The viewport tracker *)

Module Viewport.

Module Cartesian2.
Record t : Type := mk { x : R; y : R }.
End Cartesian2.

Inductive SceneMode : Type :=
| MORPHING
| COLUMBUS_VIEW
| SCENE2D
| SCENE3D.

Record ViewerParameters : Type := mkViewerParameters {
lonRange : Cartesian2.t;
latRange : Cartesian2.t;
pixelSize : R;
sceneMode : SceneMode
}.

(** What [updateViewerParameters] reads from the host: the size of the
  canvas, the scene mode, and the projection of a screen position on the
  globe, that is [camera.pickEllipsoid] followed by
  [cartesianToCartographic] and [toDegrees]; [None] when the ray misses the
  globe, [Some (lon, lat)] in degrees otherwise. *)
Record Scene : Type := mkScene {
clientWidth : R;
clientHeight : R;
pickLonLat : Cartesian2.t -> option (R * R);
mode : SceneMode
}.

Definition corners (sc : Scene) : list Cartesian2.t :=
[ Cartesian2.mk 0 0;
  Cartesian2.mk 0 (clientHeight sc);
  Cartesian2.mk (clientWidth sc) 0;
  Cartesian2.mk (clientWidth sc) (clientHeight sc) ].

(** The variables of the loop over the corners. *)
Record CornerAcc : Type := mkCornerAcc {
minLon : R;
maxLon : R;
minLat : R;
maxLat : R;
isOutsideGlobe : bool
}.

Definition cornerInit : CornerAcc := mkCornerAcc 180 (-180) 90 (-90) false.

(** [for (const corner of corners)], with its [break] at the first corner
  that misses the globe. *)
Fixpoint scanCorners (pick : Cartesian2.t -> option (R * R))
       (cs : list Cartesian2.t) (acc : CornerAcc) : CornerAcc :=
match cs with
| [] => acc
| c :: rest =>
    match pick c with
    | None =>
        mkCornerAcc (minLon acc) (maxLon acc) (minLat acc) (maxLat acc) true
    | Some (lon, lat) =>
        scanCorners pick rest
          (mkCornerAcc (Rmin (minLon acc) lon) (Rmax (maxLon acc) lon)
                       (Rmin (minLat acc) lat) (Rmax (maxLat acc) lat)
                       (isOutsideGlobe acc))
    end
end.

(** [new Cartesian2(Math.max(lo, vmin), Math.min(hi, vmax))]. *)
Definition intersectRange (lo hi vmin vmax : R) : Cartesian2.t :=
Cartesian2.mk (Rmax lo vmin) (Rmin hi vmax).

(** The 5% buffer, clamped again: the buffer is computed from the range
  before either edge is moved. *)
Definition addBuffer (lo hi : R) (r : Cartesian2.t) : Cartesian2.t :=
let buffer := (Cartesian2.y r - Cartesian2.x r) * 0.05 in
Cartesian2.mk (Rmax lo (Cartesian2.x r - buffer))
              (Rmin hi (Cartesian2.y r + buffer)).

(** [Math.min(visibleRatioLon, visibleRatioLat)]. *)
Definition visibleRatio (b : Bounds) (lonR latR : Cartesian2.t) : R :=
let dataLonRange := east b - west b in
let dataLatRange := north b - south b in
Rmin ((Cartesian2.y lonR - Cartesian2.x lonR) / dataLonRange)
     ((Cartesian2.y latR - Cartesian2.x latR) / dataLatRange).

(** The ranges of an on-globe recomputation. *)
Definition visibleLonRange (b : Bounds) (acc : CornerAcc) : Cartesian2.t :=
addBuffer (west b) (east b)
          (intersectRange (west b) (east b) (minLon acc) (maxLon acc)).

Definition visibleLatRange (b : Bounds) (acc : CornerAcc) : Cartesian2.t :=
addBuffer (south b) (north b)
          (intersectRange (south b) (north b) (minLat acc) (maxLat acc)).

(** The body of [if (!isOutsideGlobe)]. *)
Definition onGlobeUpdate (b : Bounds) (acc : CornerAcc) (vp : ViewerParameters)
: ViewerParameters :=
let lonR := visibleLonRange b acc in
let latR := visibleLatRange b acc in
let ps := 1000 * visibleRatio b lonR latR in
mkViewerParameters lonR latR
  (if Rgt_dec ps 0 then Rmax 0 (Rmin 1000 ps) else pixelSize vp)
  (sceneMode vp).

(** The new [viewerParameters]; the call of the particle system's
  [applyViewerParameters] is in [Layer.updateViewerParameters]. *)
Definition updateViewerParameters (w : RequiredWindData) (sc : Scene)
         (vp : ViewerParameters) : ViewerParameters :=
let acc := scanCorners (pickLonLat sc) (corners sc) cornerInit in
let vp1 := if isOutsideGlobe acc then vp else onGlobeUpdate (bounds w) acc vp in
mkViewerParameters (lonRange vp1) (latRange vp1) (pixelSize vp1) (mode sc).

(** The visible-to-total ratio that a recomputation over [sc] computes. *)
Definition sceneRatio (w : RequiredWindData) (sc : Scene) : R :=
let acc := scanCorners (pickLonLat sc) (corners sc) cornerInit in
visibleRatio (bounds w) (visibleLonRange (bounds w) acc)
             (visibleLatRange (bounds w) acc).

(** All four corners project onto the globe. *)
Definition onGlobe (sc : Scene) : Prop :=
forall c, In c (corners sc) -> pickLonLat sc c <> None.

(** Some corner does not. *)
Definition offGlobe (sc : Scene) : Prop :=
exists c, In c (corners sc) /\ pickLonLat sc c = None.

(** The state the constructor starts from. *)
Definition initialViewerParameters (m : SceneMode) : ViewerParameters :=
mkViewerParameters (Cartesian2.mk (-180) 180) (Cartesian2.mk (-90) 90) 1000 m.

End Viewport.

Import Viewport.

(** ** Options *)

Record Range : Type := mkRange {
  range_min : R;
  range_max : R
}.

(** [WindLayerOptions], with the members that [DefaultOptions] lists. *)
Record WindLayerOptions : Type := mkOptions {
  particlesTextureSize : R;
  dropRate : R;
  particleHeight : R;
  dropRateBump : R;
  speedFactor : R;
  lineWidth : Range;
  lineLength : Range;
  colors : list string;
  flipY : bool;
  useViewerBounds : bool;
  domain : option Range;
  displayRange : option Range;
  dynamic : bool
}.

Definition DefaultOptions : WindLayerOptions :=
  mkOptions 100 0.003 1000 0.01 1 (mkRange 1 2) (mkRange 20 100)
            ["white"%string] false false None None true.

(** [Partial<WindLayerOptions>]: every member may be absent. *)
Record PartialOptions : Type := mkPartialOptions {
  p_particlesTextureSize : option R;
  p_dropRate : option R;
  p_particleHeight : option R;
  p_dropRateBump : option R;
  p_speedFactor : option R;
  p_lineWidth : option Range;
  p_lineLength : option Range;
  p_colors : option (list string);
  p_flipY : option bool;
  p_useViewerBounds : option bool;
  p_domain : option (option Range);
  p_displayRange : option (option Range);
  p_dynamic : option bool
}.

Definition orElse {A : Type} (o : option A) (d : A) : A :=
  match o with
  | Some a => a
  | None => d
  end.

(** [{ ...base, ...over }]. *)
Definition spread (base : WindLayerOptions) (over : PartialOptions) : WindLayerOptions :=
  mkOptions
    (orElse (p_particlesTextureSize over) (particlesTextureSize base))
    (orElse (p_dropRate over) (dropRate base))
    (orElse (p_particleHeight over) (particleHeight base))
    (orElse (p_dropRateBump over) (dropRateBump base))
    (orElse (p_speedFactor over) (speedFactor base))
    (orElse (p_lineWidth over) (lineWidth base))
    (orElse (p_lineLength over) (lineLength base))
    (orElse (p_colors over) (colors base))
    (orElse (p_flipY over) (flipY base))
    (orElse (p_useViewerBounds over) (useViewerBounds base))
    (orElse (p_domain over) (domain base))
    (orElse (p_displayRange over) (displayRange base))
    (orElse (p_dynamic over) (dynamic base)).

(** What [index.ts] imports from [./utils]; the file is not part of the
    sources at hand, so [deepMerge] is a parameter of the layer. *)
Class Utils : Type := {
  deepMerge : PartialOptions -> WindLayerOptions -> WindLayerOptions
}.

(** ** The layer and its host *)

Module Layer.

(** Drawable objects and subscriber callbacks are known by identity. *)
Definition Primitive : Type := nat.
Definition Callback : Type := nat.

Inductive WindLayerEventType : Type :=
| dataChange
| optionsChange.

Definition eventType_eqb (a b : WindLayerEventType) : bool :=
  match a, b with
  | dataChange, dataChange => true
  | optionsChange, optionsChange => true
  | _, _ => false
  end.

(** A function object registered with the camera, the scene or the window.
    [this.updateViewerParameters.bind(this)] creates a new function object
    each time it is evaluated: [Bound n] is the one that the [n]-th
    evaluation created.  [Other n] is a function of the rest of the
    application. *)
Inductive Listener : Type :=
| Bound (n : nat)
| Other (n : nat).

Definition listener_eqb (a b : Listener) : bool :=
  match a, b with
  | Bound n, Bound m => Nat.eqb n m
  | Other n, Other m => Nat.eqb n m
  | _, _ => false
  end.

Inductive Payload : Type :=
| DataPayload (d : RequiredWindData)
| OptionsPayload (o : WindLayerOptions).

(** The calls that leave the layer, in the order they are made. *)
Inductive Effect : Type :=
| EngineNew (d : RequiredWindData) (o : WindLayerOptions) (vp : ViewerParameters)
| EngineUpdateWindData (d : RequiredWindData)
| EngineChangeOptions (o : PartialOptions)
| EngineApplyViewerParameters (vp : ViewerParameters)
| EngineDestroy
| RequestRender
| PrimitiveShow (p : Primitive) (visible : bool)
| CameraFlyTo (destination : Bounds) (duration : R)
| Notified (cb : Callback) (data : Payload).

(** The state of the host that the layer reads and writes. *)
Record Host : Type := mkHost {
  scene : Scene;
  percentageChanged : R;
  cameraChanged : list Listener;
  morphComplete : list Listener;
  windowResize : list Listener;
  scenePrimitives : list Primitive;
  getPrimitives : list Primitive;
  bindCount : nat;
  trace : list Effect
}.

(** The fields of a constructed [WindLayer]. *)
Record t : Type := mk {
  _show : bool;
  windData : RequiredWindData;
  options : WindLayerOptions;
  viewerParameters : ViewerParameters;
  _isDestroyed : bool;
  primitives : list Primitive;
  eventListeners : list (WindLayerEventType * list Callback);
  host : Host
}.

(** *** Field updates *)

Definition withHost (f : Host -> Host) (s : t) : t :=
  mk (_show s) (windData s) (options s) (viewerParameters s) (_isDestroyed s)
     (primitives s) (eventListeners s) (f (host s)).

Definition setShow (b : bool) (s : t) : t :=
  mk b (windData s) (options s) (viewerParameters s) (_isDestroyed s)
     (primitives s) (eventListeners s) (host s).

Definition setWindData (d : RequiredWindData) (s : t) : t :=
  mk (_show s) d (options s) (viewerParameters s) (_isDestroyed s)
     (primitives s) (eventListeners s) (host s).

Definition setOptions (o : WindLayerOptions) (s : t) : t :=
  mk (_show s) (windData s) o (viewerParameters s) (_isDestroyed s)
     (primitives s) (eventListeners s) (host s).

Definition setViewerParameters (vp : ViewerParameters) (s : t) : t :=
  mk (_show s) (windData s) (options s) vp (_isDestroyed s)
     (primitives s) (eventListeners s) (host s).

Definition setIsDestroyed (b : bool) (s : t) : t :=
  mk (_show s) (windData s) (options s) (viewerParameters s) b
     (primitives s) (eventListeners s) (host s).

Definition setPrimitives (ps : list Primitive) (s : t) : t :=
  mk (_show s) (windData s) (options s) (viewerParameters s) (_isDestroyed s)
     ps (eventListeners s) (host s).

Definition setEventListeners (m : list (WindLayerEventType * list Callback)) (s : t) : t :=
  mk (_show s) (windData s) (options s) (viewerParameters s) (_isDestroyed s)
     (primitives s) m (host s).

Definition setScene (sc : Scene) (h : Host) : Host :=
  mkHost sc (percentageChanged h) (cameraChanged h) (morphComplete h)
         (windowResize h) (scenePrimitives h) (getPrimitives h) (bindCount h) (trace h).

Definition setPercentageChanged (p : R) (h : Host) : Host :=
  mkHost (scene h) p (cameraChanged h) (morphComplete h)
         (windowResize h) (scenePrimitives h) (getPrimitives h) (bindCount h) (trace h).

Definition setCameraChanged (l : list Listener) (h : Host) : Host :=
  mkHost (scene h) (percentageChanged h) l (morphComplete h)
         (windowResize h) (scenePrimitives h) (getPrimitives h) (bindCount h) (trace h).

Definition setMorphComplete (l : list Listener) (h : Host) : Host :=
  mkHost (scene h) (percentageChanged h) (cameraChanged h) l
         (windowResize h) (scenePrimitives h) (getPrimitives h) (bindCount h) (trace h).

Definition setWindowResize (l : list Listener) (h : Host) : Host :=
  mkHost (scene h) (percentageChanged h) (cameraChanged h) (morphComplete h)
         l (scenePrimitives h) (getPrimitives h) (bindCount h) (trace h).

Definition setScenePrimitives (ps : list Primitive) (h : Host) : Host :=
  mkHost (scene h) (percentageChanged h) (cameraChanged h) (morphComplete h)
         (windowResize h) ps (getPrimitives h) (bindCount h) (trace h).

Definition setBindCount (n : nat) (h : Host) : Host :=
  mkHost (scene h) (percentageChanged h) (cameraChanged h) (morphComplete h)
         (windowResize h) (scenePrimitives h) (getPrimitives h) n (trace h).

Definition emit (e : Effect) (h : Host) : Host :=
  mkHost (scene h) (percentageChanged h) (cameraChanged h) (morphComplete h)
         (windowResize h) (scenePrimitives h) (getPrimitives h) (bindCount h)
         (trace h ++ [e]).

(** *** Host collections *)

(** [removeEventListener]: the first registration of that very function
    object is removed; nothing happens when there is none. *)
Fixpoint removeListener (f : Listener) (l : list Listener) : list Listener :=
  match l with
  | [] => []
  | g :: rest => if listener_eqb f g then rest else g :: removeListener f rest
  end.

(** [scene.primitives.remove(primitive)]. *)
Fixpoint removePrimitive (p : Primitive) (l : list Primitive) : list Primitive :=
  match l with
  | [] => []
  | q :: rest => if Nat.eqb p q then rest else q :: removePrimitive p rest
  end.

(** [this.updateViewerParameters.bind(this)]: a function object that did
    not exist before. *)
Definition bind (h : Host) : Listener * Host :=
  (Bound (bindCount h), setBindCount (S (bindCount h)) h).

(** *** The map of subscribers *)

Fixpoint getListeners (ty : WindLayerEventType)
         (m : list (WindLayerEventType * list Callback)) : option (list Callback) :=
  match m with
  | [] => None
  | (k, cbs) :: rest => if eventType_eqb ty k then Some cbs else getListeners ty rest
  end.

Fixpoint putListeners (ty : WindLayerEventType) (cbs : list Callback)
         (m : list (WindLayerEventType * list Callback))
  : list (WindLayerEventType * list Callback) :=
  match m with
  | [] => [(ty, cbs)]
  | (k, old) :: rest =>
      if eventType_eqb ty k then (k, cbs) :: rest
      else (k, old) :: putListeners ty cbs rest
  end.

(** [Set.prototype.add] and [Set.prototype.delete]. *)
Definition setAdd (cb : Callback) (cbs : list Callback) : list Callback :=
  if existsb (Nat.eqb cb) cbs then cbs else cbs ++ [cb].

Definition setDelete (cb : Callback) (cbs : list Callback) : list Callback :=
  filter (fun c => negb (Nat.eqb cb c)) cbs.

(** *** The methods of the class *)

Section Methods.

Context {utils : Utils}.

Definition addEventListener (ty : WindLayerEventType) (cb : Callback) (s : t) : t :=
  let m := match getListeners ty (eventListeners s) with
           | None => putListeners ty [] (eventListeners s)
           | Some _ => eventListeners s
           end in
  match getListeners ty m with
  | Some cbs => setEventListeners (putListeners ty (setAdd cb cbs) m) s
  | None => setEventListeners m s
  end.

Definition removeEventListener (ty : WindLayerEventType) (cb : Callback) (s : t) : t :=
  match getListeners ty (eventListeners s) with
  | Some cbs => setEventListeners (putListeners ty (setDelete cb cbs) (eventListeners s)) s
  | None => s
  end.

(** [this.eventListeners.get(type)?.forEach(callback => callback(data))]. *)
Definition dispatchEvent (ty : WindLayerEventType) (data : Payload) (s : t) : t :=
  match getListeners ty (eventListeners s) with
  | Some cbs => fold_left (fun st cb => withHost (emit (Notified cb data)) st) cbs s
  | None => s
  end.

Definition updatePrimitivesVisibility (visible : bool) (s : t) : t :=
  fold_left (fun st p => withHost (emit (PrimitiveShow p visible)) st) (primitives s) s.

(** The setter of [show]. *)
Definition setShowProperty (value : bool) (s : t) : t :=
  if Bool.eqb (_show s) value then s
  else updatePrimitivesVisibility value (setShow value s).

(** The handler of the camera, morph and resize events.  The particle
    system exists in every constructed layer, so
    [this.particleSystem?.applyViewerParameters] is a call. *)
Definition updateViewerParameters (s : t) : t :=
  let vp := Viewport.updateViewerParameters
              (windData s) (scene (host s)) (viewerParameters s) in
  withHost (emit (EngineApplyViewerParameters vp)) (setViewerParameters vp s).

Definition setupEventListeners (s : t) : t :=
  let h := setPercentageChanged 0.01 (host s) in
  let '(f1, h) := bind h in
  let h := setCameraChanged (cameraChanged h ++ [f1]) h in
  let '(f2, h) := bind h in
  let h := setMorphComplete (morphComplete h ++ [f2]) h in
  let '(f3, h) := bind h in
  let h := setWindowResize (windowResize h ++ [f3]) h in
  withHost (fun _ => h) s.

Definition removeEventListeners (s : t) : t :=
  let h := host s in
  let '(f1, h) := bind h in
  let h := setCameraChanged (removeListener f1 (cameraChanged h)) h in
  let '(f2, h) := bind h in
  let h := setMorphComplete (removeListener f2 (morphComplete h)) h in
  let '(f3, h) := bind h in
  let h := setWindowResize (removeListener f3 (windowResize h)) h in
  withHost (fun _ => h) s.

Definition updateWindData (data : WindData) (s : t) : t :=
  if _isDestroyed s then s
  else
    let s := setWindData (processWindData data) s in
    let s := withHost (emit (EngineUpdateWindData (windData s))) s in
    let s := withHost (emit RequestRender) s in
    dispatchEvent dataChange (DataPayload (windData s)) s.

Definition updateOptions (opts : PartialOptions) (s : t) : t :=
  if _isDestroyed s then s
  else
    let s := setOptions (deepMerge opts (options s)) s in
    let s := withHost (emit (EngineChangeOptions opts)) s in
    let s := withHost (emit RequestRender) s in
    dispatchEvent optionsChange (OptionsPayload (options s)) s.

Definition zoomTo (duration : R) (s : t) : t :=
  withHost (emit (CameraFlyTo (bounds (windData s)) duration)) s.

Definition add (s : t) : t :=
  let ps := getPrimitives (host s) in
  withHost (fun h => setScenePrimitives (scenePrimitives h ++ ps) h)
           (setPrimitives ps s).

Definition remove (s : t) : t :=
  setPrimitives []
    (withHost (fun h => setScenePrimitives
                          (fold_left (fun l p => removePrimitive p l)
                                     (primitives s) (scenePrimitives h)) h) s).

Definition isDestroyed (s : t) : bool := _isDestroyed s.

Definition destroy (s : t) : t :=
  let s := remove s in
  let s := removeEventListeners s in
  let s := withHost (emit EngineDestroy) s in
  let s := setEventListeners [] s in
  setIsDestroyed true s.

(** [new WindLayer(viewer, windData, options)] in a host [h].  The first
    [updateViewerParameters] runs before the particle system exists, so
    it applies nothing to it. *)
Definition constructor (h : Host) (data : WindData) (opts : PartialOptions) : t :=
  let o := spread DefaultOptions opts in
  let d := processWindData data in
  let vp := Viewport.updateViewerParameters d (scene h)
              (initialViewerParameters (mode (scene h))) in
  let s := mk true d o vp false [] [] (emit (EngineNew d o vp) h) in
  setupEventListeners (add s).

(** The host raises [camera.changed]: every function of this layer that
    is still registered runs. *)
Definition fireCameraChanged (sc : Scene) (s : t) : t :=
  let s := withHost (setScene sc) s in
  fold_left (fun st f => match f with
                         | Bound _ => updateViewerParameters st
                         | Other _ => st
                         end)
            (cameraChanged (host s)) s.

(** The calls a client or the host can make on a constructed layer. *)
Inductive Call : Type :=
| CallUpdateWindData (data : WindData)
| CallUpdateOptions (opts : PartialOptions)
| CallSetShow (value : bool)
| CallZoomTo (duration : R)
| CallAdd
| CallRemove
| CallDestroy
| CallAddEventListener (ty : WindLayerEventType) (cb : Callback)
| CallRemoveEventListener (ty : WindLayerEventType) (cb : Callback)
| CameraChanged (sc : Scene).

Definition step (s : t) (c : Call) : t :=
  match c with
  | CallUpdateWindData data => updateWindData data s
  | CallUpdateOptions opts => updateOptions opts s
  | CallSetShow value => setShowProperty value s
  | CallZoomTo duration => zoomTo duration s
  | CallAdd => add s
  | CallRemove => remove s
  | CallDestroy => destroy s
  | CallAddEventListener ty cb => addEventListener ty cb s
  | CallRemoveEventListener ty cb => removeEventListener ty cb s
  | CameraChanged sc => fireCameraChanged sc s
  end.

Definition run (cs : list Call) (s : t) : t := fold_left step cs s.

End Methods.

End Layer.

(** ** Well-formed fields and the fixtures of the examples *)

(** The invariant of a field: a grid with at least one cell in each
    direction, axes of [width * height] samples, and bounds with
    [west < east] and [south < north]. *)
Definition validBounds (b : Bounds) : Prop :=
  west b < east b /\ south b < north b.

Definition gridSize {F : Type -> Type} (w : WindDataOf F) : nat :=
  Z.to_nat (width w * height w).

Definition wellFormed (w : RequiredWindData) : Prop :=
  (0 < width w)%Z /\ (0 < height w)%Z /\
  length (array (u w)) = gridSize w /\
  length (array (v w)) = gridSize w /\
  validBounds (bounds w).

(** The part of the invariant that is about the grid and the arrays. *)
Definition gridShaped (w : RequiredWindData) : Prop :=
  (0 < width w)%Z /\ (0 < height w)%Z /\
  length (array (u w)) = gridSize w /\
  length (array (v w)) = gridSize w.

(** Every sample of the array is a real number: neither [NaN] nor an
    infinity. *)
Definition allNum (a : list number) : Prop :=
  Forall (fun s => exists r, s = Num r) a.

(** [sqrt(u[i]^2 + v[i]^2)], as the loop of [processWindData] computes it
    before it stores it. *)
Definition magnitude (ua va : list number) (i : nat) : number :=
  Js.sqrt (add (mul (toNumber (read ua i)) (toNumber (read ua i)))
               (mul (toNumber (read va i)) (toNumber (read va i)))).

(** The same value as the [Float32Array] of the speed axis holds it. *)
Definition storedMagnitude (ua va : list number) (i : nat) : number :=
  fround (magnitude ua va i).

(** The variables of the loop that derives the speed axis once the indices
    below [k] are done: the magnitudes so far as the [Float32Array] holds
    them, then the zeros of the fresh array, and the range of the stored
    magnitudes that are not zero. *)
Definition speedAfter (ua va : list number) (k : nat) : SpeedAcc :=
  let done := map (storedMagnitude ua va) (seq 0 k) in
  mkSpeedAcc (done ++ repeat (Num 0) (length ua - k))
             (fold_left Js.min (filter neq0 done) (Num MAX_VALUE))
             (fold_left Js.max (filter neq0 done) (Num MIN_VALUE)).

(** The speed and mask axes and their ranges are all present. *)
Definition complete (w : WindData) : Prop :=
  exists s m smin smax mmin mmax,
    speed w = Some s /\ min s = Some smin /\ max s = Some smax /\
    mask w = Some m /\ min m = Some mmin /\ max m = Some mmax.


Definition rawAxis (a : list R) : Axis := mkAxis (map Num a) None None.

Definition square10 : Bounds := mkBounds 0 0 10 10.

(** A 2 x 2 field over [0,10] x [0,10] with one cell of magnitude 5. *)
Definition gustField : WindData :=
  mkWindData (rawAxis [0; 3; 0; 0]) (rawAxis [0; 4; 0; 0]) None None 2 2 square10.

(** A 2 x 2 field without wind. *)
Definition calmField : WindData :=
  mkWindData (rawAxis [0; 0; 0; 0]) (rawAxis [0; 0; 0; 0]) None None 2 2 square10.


(** A field that is already complete. *)
Definition completeField : WindData :=
  mkWindData (rawAxis [1; 2; 3; 4]) (rawAxis [0; 0; 0; 0])
             (Some (mkAxis (map Num [1; 2; 3; 4]) (Some (Num 1)) (Some (Num 4))))
             (Some (mkAxis (map Num [1; 1; 1; 1]) (Some (Num 1)) (Some (Num 1))))
             2 2 square10.

(** A field of one column and two rows. *)
Definition columnField : RequiredWindData :=
  mkWindData (rawAxis [0; 10]) (rawAxis [0; 0])
             (mkAxis (map Num [0; 10]) (Some (Num 10)) (Some (Num 10)))
             (mkAxis (map Num [1; 1]) (Some (Num 1)) (Some (Num 1)))
             1 2 square10.

(** A 2 x 2 field whose u component changes sign along a row. *)
Definition shearField : RequiredWindData :=
  mkWindData (rawAxis [3; -3; 3; -3]) (rawAxis [0; 0; 0; 0])
             (mkAxis (map Num [3; 3; 3; 3]) (Some (Num 3)) (Some (Num 3)))
             (mkAxis (map Num [1; 1; 1; 1]) (Some (Num 1)) (Some (Num 1)))
             2 2 square10.

(** A scene whose four screen corners project onto the corners of the
    rectangle [lon0, lon1] x [lat0, lat1]. *)
Definition viewOf (lon0 lon1 lat0 lat1 : R) : Scene :=
  mkScene 800 600
          (fun c => Some (if Req_dec_T (Cartesian2.x c) 0 then lon0 else lon1,
                          if Req_dec_T (Cartesian2.y c) 0 then lat1 else lat0))
          SCENE3D.

(** A scene whose camera looks past the globe at the right of the screen. *)
Definition horizonView : Scene :=
  mkScene 800 600
          (fun c => if Req_dec_T (Cartesian2.x c) 0 then Some (2, 3) else None)
          COLUMBUS_VIEW.

(** The whole of [square10] on screen, a close-up of its centre, and a view
    of a region to the east of it. *)
Definition wideView : Scene := viewOf (-20) 30 (-20) 30.
Definition narrowView : Scene := viewOf 4 6 4 6.
Definition eastView : Scene := viewOf 20 30 2 8.

(** Function objects are created with a new identity: no registration of
    the host holds a function that [bind] has yet to create. *)
Definition freshBinds (h : Layer.Host) : Prop :=
  forall n, (Layer.bindCount h <= n)%nat ->
            ~ In (Layer.Bound n) (Layer.cameraChanged h) /\
            ~ In (Layer.Bound n) (Layer.morphComplete h) /\
            ~ In (Layer.Bound n) (Layer.windowResize h).

(** A host in which nothing is registered yet. *)
Definition emptyHost : Layer.Host :=
  Layer.mkHost (viewOf 4 6 4 6) 0.5 [] [] [] [] [7%nat; 8%nat] 0 [].

(** [deepMerge] read as "the keys of the partial record win". *)
Definition overrideUtils : Utils := {| deepMerge := fun p o => spread o p |}.

Definition noOptions : PartialOptions :=
  mkPartialOptions None None None None None None None None None None None None None.

(** ** Vocabulary of the further properties *)


(** The original values of a query whose cell has index [i]. *)
Definition cellAt (w : RequiredWindData) (i : Z) : Triple (option number) :=
  mkTriple (readZ (array (u w)) i) (readZ (array (v w)) i) (readZ (array (speed w)) i).

(** The callbacks subscribed to a kind of event, in the order of the set. *)
Definition subscribers (ty : Layer.WindLayerEventType) (s : Layer.t) : list Layer.Callback :=
  match Layer.getListeners ty (Layer.eventListeners s) with
  | Some cbs => cbs
  | None => []
  end.

Definition isDestroyCall (c : Layer.Call) : bool :=
  match c with
  | Layer.CallDestroy => true
  | _ => false
  end.

(** A listener that does not belong to the layer. *)
Definition isOther (f : Layer.Listener) : bool :=
  match f with
  | Layer.Other _ => true
  | Layer.Bound _ => false
  end.

(** A field whose mask comes without its range, and a field whose v axis is
    shorter than its u axis. *)
Definition maskedField : WindData :=
  mkWindData (rawAxis [1; 2; 3; 4]) (rawAxis [0; 0; 0; 0]) None
             (Some (rawAxis [0; 1; 0; 1])) 2 2 square10.

Definition raggedField : WindData :=
  mkWindData (rawAxis [3; 0; 0; 0]) (rawAxis [4; 0]) None None 2 2 square10.

(** A host in which the application has a camera listener and two
    primitives of its own, and a layer of that host whose primitives are not
    in the scene. *)
Definition busyHost : Layer.Host :=
  Layer.mkHost (viewOf 4 6 4 6) 0.5 [Layer.Other 1] [] [] [1%nat; 2%nat]
               [7%nat; 8%nat] 0 [].

Definition detachedLayer : Layer.t :=
  Layer.mk true shearField DefaultOptions (initialViewerParameters SCENE3D) false [] []
           busyHost.

(** * Properties *)

(** ** Numbers and arrays *)

Lemma floor_unique (x : R) (z : Z) : IZR z <= x < IZR z + 1 -> floor x = z.
Proof.
  intros [Hlo Hhi]. unfold floor. symmetry. apply Int_part_spec. lra.
Qed.

Lemma floor_IZR (z : Z) : floor (IZR z) = z.
Proof. apply floor_unique. lra. Qed.

Lemma floor_bounds (x : R) : IZR (floor x) <= x < IZR (floor x) + 1.
Proof.
  unfold floor. destruct (base_Int_part x) as [H1 H2]. lra.
Qed.

Lemma MIN_VALUE_pos : 0 < MIN_VALUE.
Proof.
  unfold MIN_VALUE. apply Rinv_0_lt_compat. apply IZR_lt. reflexivity.
Qed.






Lemma sqrt_Num (r : R) : 0 <= r -> Js.sqrt (Num r) = Num (R_sqrt.sqrt r).
Proof. intros H. unfold Js.sqrt. destruct (Rlt_dec r 0); [lra | reflexivity]. Qed.

Lemma store_length {A : Type} (a : list A) (i : nat) (x : A) :
  length (store a i x) = length a.
Proof.
  revert i. induction a as [| h t IH]; intros [| j]; simpl; auto.
Qed.

Lemma store_middle {A : Type} (l1 l2 : list A) (x y : A) (k : nat) :
  length l1 = k -> store (l1 ++ x :: l2) k y = l1 ++ y :: l2.
Proof.
  intros <-. induction l1 as [| h t IH]; simpl; [reflexivity | now rewrite IH].
Qed.

Lemma read_middle {A : Type} (l1 l2 : list A) (x : A) (k : nat) :
  length l1 = k -> read (l1 ++ x :: l2) k = Some x.
Proof.
  intros <-. unfold read. induction l1 as [| h t IH]; simpl; auto.
Qed.

Lemma readZ_defined {A : Type} (a : list A) (i : Z) :
  (0 <= i < Z.of_nat (length a))%Z -> exists x, readZ a i = Some x /\ In x a.
Proof.
  intros [Hlo Hhi]. unfold readZ.
  destruct (Z.ltb_spec i 0) as [Hneg | _]; [lia |].
  destruct (nth_error a (Z.to_nat i)) as [x |] eqn:E.
  - exists x. split; [reflexivity | eapply nth_error_In; eassumption].
  - apply nth_error_None in E. lia.
Qed.

Lemma readZ_Num (a : list number) (i : Z) :
  allNum a -> (0 <= i < Z.of_nat (length a))%Z -> exists r, readZ a i = Some (Num r).
Proof.
  intros Hall Hi. destruct (readZ_defined a i Hi) as [x [Hx Hin]].
  unfold allNum in Hall. rewrite Forall_forall in Hall.
  destruct (Hall x Hin) as [r ->]. exists r. exact Hx.
Qed.

(** ** The store into a Float32Array *)



















(** ** processWindData: the derived speed axis *)

Section DerivedSpeed.

Variables ua va : list number.

Let n := length ua.
Let sp := storedMagnitude ua va.
Let after := speedAfter ua va.

Lemma speedStep_after (k : nat) :
  (k < n)%nat -> speedStep ua va (after k) k = after (S k).
Proof.
  intros Hk. unfold after, speedAfter, speedStep, storeF32.
  fold n. fold sp. cbn [acc_array acc_min acc_max].
  assert (Hlen : length (map sp (seq 0 k)) = k) by (now rewrite length_map, length_seq).
  replace (n - k)%nat with (S (n - S k)) by lia. cbn [repeat].
  rewrite (store_middle _ _ _ _ k Hlen), (read_middle _ _ _ k Hlen). cbn [toNumber].
  rewrite seq_S, map_app, filter_app, !fold_left_app. cbn [map filter Nat.add].
  fold (magnitude ua va k). fold (storedMagnitude ua va k). fold sp.
  rewrite <- app_assoc. cbn [app].
  destruct (neq0 (sp k)); reflexivity.
Qed.

Lemma speedAfter_0 :
  after 0 = mkSpeedAcc (repeat (Num 0) n) (Num MAX_VALUE) (Num MIN_VALUE).
Proof. unfold after, speedAfter. cbn. now rewrite Nat.sub_0_r. Qed.

Lemma speed_loop (k : nat) :
  (k <= n)%nat ->
  fold_left (speedStep ua va) (seq 0 k) (after 0) = after k.
Proof.
  induction k as [| k IH]; intros Hk; [reflexivity |].
  rewrite seq_S, fold_left_app, IH by lia. cbn [fold_left Nat.add].
  apply speedStep_after. lia.
Qed.

Lemma deriveSpeed_spec :
  let s := deriveSpeed ua va in
  array s = map sp (seq 0 n) /\
  min s = Some (fold_left Js.min (filter neq0 (array s)) (Num MAX_VALUE)) /\
  max s = Some (fold_left Js.max (filter neq0 (array s)) (Num MIN_VALUE)).
Proof.
  unfold deriveSpeed. fold n. rewrite <- speedAfter_0.
  cbn zeta. cbn [array min max].
  rewrite speed_loop by lia.
  unfold after, speedAfter. cbn [acc_array acc_min acc_max].
  rewrite Nat.sub_diag. cbn [repeat]. rewrite app_nil_r. auto.
Qed.

End DerivedSpeed.












(** ** processWindData on complete fields *)

Lemma processWindData_idempotent (w : WindData) :
  processWindData (asWindData (processWindData w)) = processWindData w.
Proof.
  unfold processWindData, asWindData. cbn [u v speed mask width height bounds].
  f_equal.
  - unfold processSpeed at 1. cbn [speed].
    unfold speedIncomplete at 1. cbn [speed].
    unfold processSpeed. destruct (speed w) as [s |] eqn:Es.
    + unfold speedIncomplete. rewrite Es.
      destruct (min s) eqn:Emin, (max s) eqn:Emax; cbn;
        try rewrite Emin; try rewrite Emax; reflexivity.
    + reflexivity.
  - unfold processMask at 1. cbn [mask].
    unfold processMask. destruct (mask w) as [m |] eqn:Em.
    + destruct (min m) eqn:Emin, (max m) eqn:Emax; cbn;
        try rewrite Emin; try rewrite Emax; reflexivity.
    + reflexivity.
Qed.

(** C6.  On a field whose speed axis and mask axis are present with their
    minimum and maximum, [processWindData] returns the field it was given,
    and a second run returns what the first one returned. *)
Theorem processWindData_complete (w : WindData) :
  complete w ->
  asWindData (processWindData w) = w /\
  processWindData (asWindData (processWindData w)) = processWindData w.
Proof.
  intros (s & m & smin & smax & mmin & mmax & Hs & Hsmin & Hsmax & Hm & Hmmin & Hmmax).
  split; [| apply processWindData_idempotent].
  destruct w as [wu wv ws wm ww wh wb]. cbn [speed mask] in Hs, Hm. subst ws wm.
  unfold asWindData, processWindData, processSpeed, processMask, speedIncomplete.
  cbn [u v speed mask width height bounds].
  rewrite Hsmin, Hsmax, Hmmin, Hmmax. reflexivity.
Qed.

Lemma processWindData_complete_witness :
  complete completeField /\
  asWindData (processWindData completeField) = completeField /\
  processWindData (asWindData (processWindData completeField))
  = processWindData completeField.
Proof.
  assert (H : complete completeField).
  { unfold complete, completeField. cbn [speed mask].
    do 6 eexists. repeat split; reflexivity. }
  split; [exact H | exact (processWindData_complete completeField H)].
Defined.

(** ** getDataAtLonLat *)

Lemma outOfBounds_false (b : Bounds) (lon lat : R) :
  outOfBounds b lon lat = false <->
  west b <= lon <= east b /\ south b <= lat <= north b.
Proof.
  unfold outOfBounds.
  destruct (Rlt_dec lon (west b)), (Rgt_dec lon (east b)),
    (Rlt_dec lat (south b)), (Rgt_dec lat (north b));
    split; intros H; try discriminate; try reflexivity; lra.
Qed.

Lemma outOfBounds_true (b : Bounds) (lon lat : R) :
  outOfBounds b lon lat = true <->
  lon < west b \/ lon > east b \/ lat < south b \/ lat > north b.
Proof.
  unfold outOfBounds.
  destruct (Rlt_dec lon (west b)), (Rgt_dec lon (east b)),
    (Rlt_dec lat (south b)), (Rgt_dec lat (north b));
    split; intros H; try discriminate; try reflexivity; tauto || lra.
Qed.

(** C1.  A query strictly inside the bounds of the field has a result that
    is not [null]; a query strictly outside on any side returns [null], and
    no array is read on that path. *)
Theorem getDataAtLonLat_null_outside (w : RequiredWindData) (flipY : bool) (lon lat : R) :
  (west (bounds w) < lon < east (bounds w) ->
   south (bounds w) < lat < north (bounds w) ->
   getDataAtLonLat w flipY lon lat <> None) /\
  (lon < west (bounds w) \/ lon > east (bounds w) \/
   lat < south (bounds w) \/ lat > north (bounds w) ->
   getDataAtLonLat w flipY lon lat = None).
Proof.
  split.
  - intros Hlon Hlat. unfold getDataAtLonLat.
    replace (outOfBounds (bounds w) lon lat) with false; [discriminate |].
    symmetry. apply outOfBounds_false. lra.
  - intros Hout. unfold getDataAtLonLat.
    apply outOfBounds_true in Hout. now rewrite Hout.
Qed.

Lemma getDataAtLonLat_null_outside_witness :
  getDataAtLonLat shearField false 5 5 <> None /\
  getDataAtLonLat shearField false 11 5 = None /\
  getDataAtLonLat shearField true 5 (-1) = None.
Proof.
  destruct (getDataAtLonLat_null_outside shearField false 5 5) as [Hin _].
  destruct (getDataAtLonLat_null_outside shearField false 11 5) as [_ Heast].
  destruct (getDataAtLonLat_null_outside shearField true 5 (-1)) as [_ Hsouth].
  repeat split.
  - apply Hin; cbn; lra.
  - apply Heast; cbn; lra.
  - apply Hsouth; cbn; lra.
Defined.

(** *** The grid coordinates of a query inside the bounds *)

Lemma fraction_range (lo hi x : R) :
  lo < hi -> lo <= x <= hi -> 0 <= (x - lo) / (hi - lo) <= 1.
Proof.
  intros Hlt Hx.
  assert (Hpos : 0 < hi - lo) by lra.
  split.
  - apply Rmult_le_pos; [lra | left; now apply Rinv_0_lt_compat].
  - apply Rmult_le_reg_r with (hi - lo); [exact Hpos |].
    unfold Rdiv. rewrite Rmult_assoc, Rinv_l by lra. lra.
Qed.

Lemma scaled_range (q k : R) : 0 <= q <= 1 -> 0 <= k -> 0 <= q * k <= k.
Proof. intros Hq Hk. split; nra. Qed.

Lemma xNorm_range (w : RequiredWindData) (lon : R) :
  validBounds (bounds w) -> (0 < width w)%Z ->
  west (bounds w) <= lon <= east (bounds w) ->
  0 <= xNorm w lon <= IZR (width w - 1).
Proof.
  intros [Hb _] Hw Hlon. unfold xNorm.
  apply scaled_range; [now apply fraction_range |].
  apply IZR_le. lia.
Qed.

Lemma yNorm_range (w : RequiredWindData) (flipY : bool) (lat : R) :
  validBounds (bounds w) -> (0 < height w)%Z ->
  south (bounds w) <= lat <= north (bounds w) ->
  0 <= yNorm w flipY lat <= IZR (height w - 1).
Proof.
  intros [_ Hb] Hh Hlat. unfold yNorm.
  assert (Hk : 0 <= IZR (height w - 1)) by (apply IZR_le; lia).
  pose proof (scaled_range _ _ (fraction_range _ _ _ Hb Hlat) Hk) as Hy.
  destruct flipY; [| exact Hy].
  rewrite minus_IZR in *. lra.
Qed.

Lemma floor_range (x : R) (m : Z) : 0 <= x <= IZR m -> (0 <= floor x <= m)%Z.
Proof.
  intros [Hlo Hhi]. destruct (floor_bounds x) as [H1 H2]. split.
  - assert (H : (-1 < floor x)%Z) by (apply lt_IZR; lra). lia.
  - apply le_IZR. lra.
Qed.

Lemma cell_index_range (wd ht x y : Z) :
  (0 <= x <= wd - 1)%Z -> (0 <= y <= ht - 1)%Z ->
  (0 <= y * wd + x < Z.of_nat (Z.to_nat (wd * ht)))%Z.
Proof.
  intros Hx Hy. rewrite Z2Nat.id by nia. nia.
Qed.

Lemma width_1_xNorm (w : RequiredWindData) (lon : R) :
  width w = 1%Z -> xNorm w lon = 0.
Proof. intros H. unfold xNorm. rewrite H. cbn. ring. Qed.

Lemma height_1_yNorm (w : RequiredWindData) (flipY : bool) (lat : R) :
  height w = 1%Z -> yNorm w flipY lat = 0.
Proof. intros H. unfold yNorm. rewrite H. cbn. destruct flipY; ring. Qed.

Lemma bilinear_zero_weights (a b c d : R) :
  bilinear 0 0 (Num a) (Num b) (Num c) (Num d) = Num a.
Proof. unfold bilinear. cbn [mul add]. f_equal. ring. Qed.

(** The value of a query once the cell of its floor is known. *)
Lemma getDataAtLonLat_at (w : RequiredWindData) (flipY : bool) (lon lat : R) (x0 y0 : Z) :
  outOfBounds (bounds w) lon lat = false ->
  IZR x0 <= xNorm w lon < IZR x0 + 1 ->
  IZR y0 <= yNorm w flipY lat < IZR y0 + 1 ->
  let x1 := Z.min (x0 + 1) (width w - 1) in
  let y1 := Z.min (y0 + 1) (height w - 1) in
  let wx := xNorm w lon - IZR x0 in
  let wy := yNorm w flipY lat - IZR y0 in
  let ui := interpAxis (array (u w)) (width w) x0 x1 y0 y1 wx wy in
  let vi := interpAxis (array (v w)) (width w) x0 x1 y0 y1 wx wy in
  getDataAtLonLat w flipY lon lat
  = Some (mkWindDataAtLonLat
            (mkTriple (readZ (array (u w)) (y0 * width w + x0))
                      (readZ (array (v w)) (y0 * width w + x0))
                      (readZ (array (speed w)) (y0 * width w + x0)))
            (mkTriple ui vi (Js.sqrt (add (mul ui ui) (mul vi vi))))).
Proof.
  intros Hin Hx Hy. unfold getDataAtLonLat. rewrite Hin.
  rewrite (floor_unique _ _ Hx), (floor_unique _ _ Hy). reflexivity.
Qed.


Lemma bilinear_Num (wx wy a b c d : R) :
  bilinear wx wy (Num a) (Num b) (Num c) (Num d)
  = Num ((1 - wx) * (1 - wy) * a + wx * (1 - wy) * b
         + (1 - wx) * wy * c + wx * wy * d).
Proof. reflexivity. Qed.

Lemma interpAxis_Num (l : list number) (wd x0 x1 y0 y1 : Z) (wx wy a b c d : R) :
  readZ l (y0 * wd + x0) = Some (Num a) ->
  readZ l (y0 * wd + x1) = Some (Num b) ->
  readZ l (y1 * wd + x0) = Some (Num c) ->
  readZ l (y1 * wd + x1) = Some (Num d) ->
  interpAxis l wd x0 x1 y0 y1 wx wy
  = Num ((1 - wx) * (1 - wy) * a + wx * (1 - wy) * b
         + (1 - wx) * wy * c + wx * wy * d).
Proof.
  intros Ha Hb Hc Hd. unfold interpAxis. rewrite Ha, Hb, Hc, Hd.
  apply bilinear_Num.
Qed.



(** C7, as the code has it.  In a field whose u and v arrays have one
    sample for each cell of the grid, all of them real numbers, when the two
    grid coordinates that the query has computed are integers, a column [k]
    and a row [j] of the grid, the result holds the raw u and v samples of
    the cell (k, j) and its interpolated u and v are those samples.  Over
    valid bounds the two divisors are not zero, a single column makes the
    computed coordinate along x zero and a single row the one along y. *)
Theorem zero_weights_give_raw_sample
        (w : RequiredWindData) (xn yn : R) (k j : Z) :
  gridShaped w -> allNum (array (u w)) -> allNum (array (v w)) ->
  xn = IZR k -> yn = IZR j ->
  (0 <= k <= width w - 1)%Z -> (0 <= j <= height w - 1)%Z ->
  (exists a b,
      readZ (array (u w)) (j * width w + k) = Some (Num a) /\
      readZ (array (v w)) (j * width w + k) = Some (Num b) /\
      pt_u (original (queryGrid w xn yn)) = Some (Num a) /\
      pt_v (original (queryGrid w xn yn)) = Some (Num b) /\
      pt_u (interpolated (queryGrid w xn yn)) = Num a /\
      pt_v (interpolated (queryGrid w xn yn)) = Num b) /\
  (validBounds (bounds w) ->
   east (bounds w) - west (bounds w) <> 0 /\
   north (bounds w) - south (bounds w) <> 0 /\
   (width w = 1%Z -> forall lon, xNorm w lon = 0) /\
   (height w = 1%Z -> forall flipY lat, yNorm w flipY lat = 0)).
Proof.
  intros (Hw & Hh & Hlu & Hlv) Hu Hv -> -> Hkr Hjr. split.
  - set (x1 := Z.min (k + 1) (width w - 1)).
    set (y1 := Z.min (j + 1) (height w - 1)).
    assert (Hx1 : (0 <= x1 <= width w - 1)%Z) by (subst x1; lia).
    assert (Hy1 : (0 <= y1 <= height w - 1)%Z) by (subst y1; lia).
    assert (Hcell : forall a x y,
               allNum a -> length a = gridSize w ->
               (0 <= x <= width w - 1)%Z -> (0 <= y <= height w - 1)%Z ->
               exists s, readZ a (y * width w + x) = Some (Num s)).
    { intros a x y Ha Hl Hxr Hyr. apply readZ_Num; [exact Ha |].
      rewrite Hl. unfold gridSize. now apply cell_index_range. }
    destruct (Hcell _ k j Hu Hlu Hkr Hjr) as [u00 E00].
    destruct (Hcell _ x1 j Hu Hlu Hx1 Hjr) as [u10 E10].
    destruct (Hcell _ k y1 Hu Hlu Hkr Hy1) as [u01 E01].
    destruct (Hcell _ x1 y1 Hu Hlu Hx1 Hy1) as [u11 E11].
    destruct (Hcell _ k j Hv Hlv Hkr Hjr) as [v00 F00].
    destruct (Hcell _ x1 j Hv Hlv Hx1 Hjr) as [v10 F10].
    destruct (Hcell _ k y1 Hv Hlv Hkr Hy1) as [v01 F01].
    destruct (Hcell _ x1 y1 Hv Hlv Hx1 Hy1) as [v11 F11].
    exists u00, v00. unfold queryGrid.
    cbn [original interpolated pt_u pt_v].
    rewrite !floor_IZR. fold x1 y1.
    rewrite (interpAxis_Num _ _ _ _ _ _ _ _ _ _ _ _ E00 E10 E01 E11).
    rewrite (interpAxis_Num _ _ _ _ _ _ _ _ _ _ _ _ F00 F10 F01 F11).
    rewrite !Rminus_diag.
    repeat split; try assumption; f_equal; ring.
  - intros [Hwe Hsn]. repeat split.
    + lra.
    + lra.
    + intros H1 lon. now apply width_1_xNorm.
    + intros H1 flipY lat. now apply height_1_yNorm.
Qed.

Lemma columnField_gridShaped :
  gridShaped columnField /\ allNum (array (u columnField)) /\ allNum (array (v columnField)).
Proof.
  unfold gridShaped, allNum.
  repeat split; try reflexivity;
    repeat (constructor; [eexists; reflexivity |]); constructor.
Qed.

Lemma columnField_valid : validBounds (bounds columnField).
Proof. unfold validBounds. cbn. lra. Qed.

Lemma columnField_wellFormed : wellFormed columnField.
Proof.
  destruct columnField_gridShaped as ((Hw & Hh & Hu & Hv) & _).
  unfold wellFormed. auto using columnField_valid.
Qed.

Lemma columnField_inside : outOfBounds (bounds columnField) 5 5 = false.
Proof. apply outOfBounds_false. cbn. lra. Qed.

Lemma columnField_xNorm : xNorm columnField 5 = 0.
Proof. unfold xNorm. cbn. lra. Qed.

Lemma columnField_yNorm : yNorm columnField false 5 = 1 / 2.
Proof. unfold yNorm. cbn. lra. Qed.

(** C7 fails as stated.  On a grid of one column and two rows the query at
    the centre of the bounds has a zero weight along x only: its interpolated
    u is 5, half-way between the two rows, and the raw sample of its cell
    is 0. *)
Lemma single_column_interpolates :
  wellFormed columnField /\ width columnField = 1%Z /\
  exists r, getDataAtLonLat columnField false 5 5 = Some r /\
            pt_u (original r) = Some (Num 0) /\
            pt_u (interpolated r) = Num 5.
Proof.
  split; [apply columnField_wellFormed |]. split; [reflexivity |].
  eexists. split.
  - apply (getDataAtLonLat_at columnField false 5 5 0 0).
    + apply columnField_inside.
    + rewrite columnField_xNorm. lra.
    + rewrite columnField_yNorm. lra.
  - cbn [original interpolated pt_u]. split; [reflexivity |].
    rewrite columnField_xNorm, columnField_yNorm.
    unfold interpAxis, bilinear, readZ. cbn. rewrite Pos2Nat.inj_1. cbn.
    f_equal. lra.
Qed.

Lemma zero_weights_give_raw_sample_witness :
  pt_u (original (queryGrid columnField 0 1)) = Some (Num 10) /\
  pt_u (interpolated (queryGrid columnField 0 1)) = Num 10 /\
  xNorm columnField 5 = 0.
Proof.
  destruct columnField_gridShaped as (Hg & Hu & Hv).
  destruct (zero_weights_give_raw_sample columnField 0 1 0 1 Hg Hu Hv
              eq_refl eq_refl)
    as ((a & b & Ha & _ & Hou & _ & Hiu & _) & Hb).
  - cbn. lia.
  - cbn. lia.
  - assert (E : readZ (array (u columnField)) (1 * width columnField + 0)
                = Some (Num 10)) by reflexivity.
    rewrite E in Ha. injection Ha as <-.
    split; [exact Hou |]. split; [exact Hiu |].
    destruct (Hb columnField_valid) as (_ & _ & Hx & _).
    now apply Hx.
Defined.

Lemma shearField_inside : outOfBounds (bounds shearField) 5 5 = false.
Proof. apply outOfBounds_false. cbn. lra. Qed.

Lemma shearField_xNorm : xNorm shearField 5 = 1 / 2.
Proof. unfold xNorm. cbn. lra. Qed.

Lemma shearField_yNorm : yNorm shearField false 5 = 1 / 2.
Proof. unfold yNorm. cbn. lra. Qed.



(** Between two cells whose u components are opposite, the interpolated
    speed is 0 although every stored speed sample is 3. *)
Lemma shear_speed_not_interpolated :
  exists r, getDataAtLonLat shearField false 5 5 = Some r /\
            pt_speed (original r) = Some (Num 3) /\
            pt_speed (interpolated r) = Num 0.
Proof.
  eexists. split.
  - apply (getDataAtLonLat_at shearField false 5 5 0 0).
    + apply shearField_inside.
    + rewrite shearField_xNorm. lra.
    + rewrite shearField_yNorm. lra.
  - cbn [original interpolated pt_speed]. split; [reflexivity |].
    rewrite shearField_xNorm, shearField_yNorm.
    unfold interpAxis, bilinear, readZ. cbn.
    change (Pos.to_nat 1) with 1%nat. change (Pos.to_nat 2) with 2%nat.
    change (Pos.to_nat 3) with 3%nat. cbn.
    match goal with
    | |- (if Rlt_dec ?e 0 then _ else _) = _ =>
        replace e with 0 by lra; destruct (Rlt_dec 0 0); [lra |]
    end.
    f_equal. apply sqrt_0.
Qed.

(** ** The viewport tracker *)

(** Rewrites every [Rmax] and [Rmin] whose order [lra] can decide. *)
Ltac minmax :=
  repeat match goal with
    | |- context [Rmax ?a ?b] =>
        first [ rewrite (Rmax_left a b) by lra | rewrite (Rmax_right a b) by lra ]
    | |- context [Rmin ?a ?b] =>
        first [ rewrite (Rmin_left a b) by lra | rewrite (Rmin_right a b) by lra ]
    end.

(** Splits on every [Rmax] and [Rmin] of the goal, the innermost first. *)
Ltac no_comparison t :=
  lazymatch t with
  | context [Rle_dec _ _] => fail
  | _ => idtac
  end.

Ltac minmax_cases :=
  unfold Rmax, Rmin;
  repeat match goal with
    | |- context [Rle_dec ?a ?b] =>
        no_comparison a; no_comparison b; destruct (Rle_dec a b)
    end.

Lemma scanCorners_onGlobe (pick : Cartesian2.t -> option (R * R))
      (cs : list Cartesian2.t) (acc : CornerAcc) :
  (forall c, In c cs -> pick c <> None) ->
  isOutsideGlobe (scanCorners pick cs acc) = isOutsideGlobe acc.
Proof.
  revert acc. induction cs as [| c rest IH]; intros acc H; [reflexivity |].
  cbn [scanCorners]. destruct (pick c) as [[lon lat] |] eqn:E.
  - rewrite IH; [reflexivity |]. intros c' Hc'. apply H. now right.
  - exfalso. apply (H c); [now left | exact E].
Qed.

Lemma scanCorners_offGlobe (pick : Cartesian2.t -> option (R * R))
      (cs : list Cartesian2.t) (acc : CornerAcc) :
  (exists c, In c cs /\ pick c = None) ->
  isOutsideGlobe (scanCorners pick cs acc) = true.
Proof.
  revert acc. induction cs as [| c rest IH]; intros acc [c' [Hin Hc']].
  - destruct Hin.
  - cbn [scanCorners]. destruct (pick c) as [[lon lat] |] eqn:E; [| reflexivity].
    apply IH. exists c'. split; [| exact Hc'].
    destruct Hin as [-> | Hin]; [congruence | exact Hin].
Qed.

Lemma updateViewerParameters_onGlobe (w : RequiredWindData) (sc : Scene) (vp : ViewerParameters) :
  onGlobe sc ->
  updateViewerParameters w sc vp
  = let vp1 := onGlobeUpdate (bounds w)
                 (scanCorners (pickLonLat sc) (corners sc) cornerInit) vp in
    mkViewerParameters (lonRange vp1) (latRange vp1) (pixelSize vp1) (mode sc).
Proof.
  intros H. unfold updateViewerParameters.
  now rewrite (scanCorners_onGlobe _ _ cornerInit H).
Qed.

Lemma updateViewerParameters_offGlobe (w : RequiredWindData) (sc : Scene) (vp : ViewerParameters) :
  offGlobe sc ->
  updateViewerParameters w sc vp
  = mkViewerParameters (lonRange vp) (latRange vp) (pixelSize vp) (mode sc).
Proof.
  intros H. unfold updateViewerParameters.
  now rewrite (scanCorners_offGlobe _ _ cornerInit H).
Qed.

(** The pixel size after a recomputation on the globe. *)
Lemma pixelSize_onGlobe (w : RequiredWindData) (sc : Scene) (vp : ViewerParameters) :
  onGlobe sc ->
  pixelSize (updateViewerParameters w sc vp)
  = if Rgt_dec (1000 * sceneRatio w sc) 0
    then Rmax 0 (Rmin 1000 (1000 * sceneRatio w sc))
    else pixelSize vp.
Proof.
  intros H. rewrite (updateViewerParameters_onGlobe _ _ _ H). reflexivity.
Qed.

Lemma addBuffer_clamped (lo hi : R) (r : Cartesian2.t) :
  lo <= Cartesian2.x (addBuffer lo hi r) /\ Cartesian2.y (addBuffer lo hi r) <= hi.
Proof.
  unfold addBuffer. cbn [Cartesian2.x Cartesian2.y].
  split; [apply Rmax_l | apply Rmin_l].
Qed.

Lemma addBuffer_inside (lo hi : R) (r : Cartesian2.t) :
  lo <= Cartesian2.x r -> Cartesian2.x r <= Cartesian2.y r -> Cartesian2.y r <= hi ->
  lo <= Cartesian2.x (addBuffer lo hi r) <= hi /\
  lo <= Cartesian2.y (addBuffer lo hi r) <= hi /\
  Cartesian2.x (addBuffer lo hi r) <= Cartesian2.y (addBuffer lo hi r).
Proof.
  intros H1 H2 H3. unfold addBuffer. cbn [Cartesian2.x Cartesian2.y].
  minmax_cases; lra.
Qed.

(** C3, as the code has it.  After a recomputation with the four corners on
    the globe, the lower edge of each range is at least the lower bound of
    the field and its upper edge at most the upper bound; when the visible
    rectangle meets the field on an axis, both edges of that range lie within
    the bounds.  A pixel size within [0, 1000] stays within [0, 1000], and a
    computed pixel size that is not positive leaves the previous one. *)
Theorem on_globe_ranges_clamped (w : RequiredWindData) (sc : Scene) (vp : ViewerParameters) :
  validBounds (bounds w) ->
  onGlobe sc ->
  let b := bounds w in
  let acc := scanCorners (pickLonLat sc) (corners sc) cornerInit in
  let vp' := updateViewerParameters w sc vp in
  (west b <= Cartesian2.x (lonRange vp') /\ Cartesian2.y (lonRange vp') <= east b) /\
  (south b <= Cartesian2.x (latRange vp') /\ Cartesian2.y (latRange vp') <= north b) /\
  (Rmax (west b) (minLon acc) <= Rmin (east b) (maxLon acc) ->
   west b <= Cartesian2.x (lonRange vp') <= east b /\
   west b <= Cartesian2.y (lonRange vp') <= east b) /\
  (Rmax (south b) (minLat acc) <= Rmin (north b) (maxLat acc) ->
   south b <= Cartesian2.x (latRange vp') <= north b /\
   south b <= Cartesian2.y (latRange vp') <= north b) /\
  (0 <= pixelSize vp <= 1000 -> 0 <= pixelSize vp' <= 1000) /\
  (1000 * sceneRatio w sc <= 0 -> pixelSize vp' = pixelSize vp).
Proof.
  intros _ Hon b acc vp'.
  assert (Hlon : lonRange vp' = visibleLonRange b acc).
  { subst vp'. now rewrite (updateViewerParameters_onGlobe _ _ _ Hon). }
  assert (Hlat : latRange vp' = visibleLatRange b acc).
  { subst vp'. now rewrite (updateViewerParameters_onGlobe _ _ _ Hon). }
  assert (Hps : pixelSize vp' = if Rgt_dec (1000 * sceneRatio w sc) 0
                                then Rmax 0 (Rmin 1000 (1000 * sceneRatio w sc))
                                else pixelSize vp).
  { subst vp'. now apply pixelSize_onGlobe. }
  rewrite Hlon, Hlat, Hps. unfold visibleLonRange, visibleLatRange.
  split; [apply addBuffer_clamped |].
  split; [apply addBuffer_clamped |].
  split; [| split; [| split]].
  - intros Hmeet.
    destruct (addBuffer_inside (west b) (east b)
                (intersectRange (west b) (east b) (minLon acc) (maxLon acc)))
      as (H1 & H2 & _); cbn [intersectRange Cartesian2.x Cartesian2.y];
      [apply Rmax_l | exact Hmeet | apply Rmin_l | split; assumption].
  - intros Hmeet.
    destruct (addBuffer_inside (south b) (north b)
                (intersectRange (south b) (north b) (minLat acc) (maxLat acc)))
      as (H1 & H2 & _); cbn [intersectRange Cartesian2.x Cartesian2.y];
      [apply Rmax_l | exact Hmeet | apply Rmin_l | split; assumption].
  - intros Hprev. destruct (Rgt_dec (1000 * sceneRatio w sc) 0); [| exact Hprev].
    minmax_cases; lra.
  - intros Hneg. destruct (Rgt_dec (1000 * sceneRatio w sc) 0); [lra | reflexivity].
Qed.

Lemma shearField_validBounds : validBounds (bounds shearField).
Proof. unfold validBounds. cbn. lra. Qed.

(** The corners of a [viewOf] scene. *)
Lemma viewOf_scan (lon0 lon1 lat0 lat1 : R) :
  -180 <= lon0 <= lon1 -> lon1 <= 180 -> -90 <= lat0 <= lat1 -> lat1 <= 90 ->
  scanCorners (pickLonLat (viewOf lon0 lon1 lat0 lat1))
              (corners (viewOf lon0 lon1 lat0 lat1)) cornerInit
  = mkCornerAcc lon0 lon1 lat0 lat1 false.
Proof.
  intros Hlon0 Hlon1 Hlat0 Hlat1.
  unfold viewOf, corners, cornerInit.
  cbn [scanCorners pickLonLat clientWidth clientHeight Cartesian2.x Cartesian2.y
       minLon maxLon minLat maxLat isOutsideGlobe].
  destruct (Req_dec_T 0 0) as [_ | H]; [| lra].
  destruct (Req_dec_T 800 0) as [H | _]; [lra |].
  destruct (Req_dec_T 600 0) as [H | _]; [lra |].
  cbn [scanCorners minLon maxLon minLat maxLat isOutsideGlobe].
  minmax. reflexivity.
Qed.

Lemma viewOf_onGlobe (lon0 lon1 lat0 lat1 : R) : onGlobe (viewOf lon0 lon1 lat0 lat1).
Proof. intros c _. discriminate. Qed.

Lemma horizonView_offGlobe : offGlobe horizonView.
Proof.
  exists (Cartesian2.mk 800 0). split.
  - cbn. auto.
  - cbn. destruct (Req_dec_T 800 0); [lra | reflexivity].
Qed.

Lemma wideView_ratio : sceneRatio shearField wideView = 1.
Proof.
  unfold sceneRatio, wideView. rewrite viewOf_scan by lra.
  unfold visibleRatio, visibleLonRange, visibleLatRange, addBuffer, intersectRange.
  cbn. minmax. lra.
Qed.

Lemma narrowView_ratio : sceneRatio shearField narrowView = 0.22.
Proof.
  unfold sceneRatio, narrowView. rewrite viewOf_scan by lra.
  unfold visibleRatio, visibleLonRange, visibleLatRange, addBuffer, intersectRange.
  cbn. minmax. lra.
Qed.

Lemma eastView_ranges (vp : ViewerParameters) :
  lonRange (updateViewerParameters shearField eastView vp) = Cartesian2.mk 20.5 9.5 /\
  latRange (updateViewerParameters shearField eastView vp) = Cartesian2.mk 1.7 8.3.
Proof.
  unfold eastView.
  rewrite (updateViewerParameters_onGlobe _ _ _ (viewOf_onGlobe _ _ _ _)).
  rewrite viewOf_scan by lra.
  unfold onGlobeUpdate, visibleLonRange, visibleLatRange, addBuffer, intersectRange.
  cbn. minmax. split; f_equal; lra.
Qed.

(** C3 fails as stated.  When the four corners project to the east of the
    field, at longitudes 20 to 30 for a field that ends at 10, the range of
    longitudes becomes (20.5, 9.5): its lower edge is outside the bounds. *)
Lemma east_of_field_leaves_bounds :
  validBounds (bounds shearField) /\
  onGlobe eastView /\
  Cartesian2.x (lonRange (updateViewerParameters shearField eastView
                            (initialViewerParameters SCENE3D)))
  > east (bounds shearField).
Proof.
  split; [apply shearField_validBounds |].
  split; [apply viewOf_onGlobe |].
  rewrite (proj1 (eastView_ranges _)). cbn. lra.
Qed.

Lemma on_globe_ranges_clamped_witness :
  let vp' := updateViewerParameters shearField narrowView (initialViewerParameters SCENE3D) in
  onGlobe narrowView /\
  0 <= Cartesian2.x (lonRange vp') <= 10 /\
  0 <= Cartesian2.y (lonRange vp') <= 10 /\
  0 <= pixelSize vp' <= 1000.
Proof.
  intros vp'.
  pose proof (on_globe_ranges_clamped shearField narrowView (initialViewerParameters SCENE3D)
                shearField_validBounds (viewOf_onGlobe _ _ _ _))
    as (_ & _ & Hlon & _ & Hps & _).
  split; [apply viewOf_onGlobe |].
  unfold narrowView in Hlon. rewrite viewOf_scan in Hlon by lra.
  cbn [minLon maxLon] in Hlon.
  destruct Hlon as [Hx Hy].
  { cbn. minmax. lra. }
  split; [exact Hx |]. split; [exact Hy |].
  apply Hps. cbn. lra.
Defined.

(** C2, as the code has it.  Over the same field, of two recomputations
    with the four corners on the globe, the one with the smaller positive
    visible ratio gets the pixel size that is smaller or equal, and strictly
    smaller as long as the larger ratio is at most 1: the pixel size is
    1000 times the ratio, clamped. *)
Theorem pixelSize_grows_with_ratio
        (w : RequiredWindData) (sc1 sc2 : Scene) (vp1 vp2 : ViewerParameters) :
  validBounds (bounds w) ->
  onGlobe sc1 -> onGlobe sc2 ->
  0 < sceneRatio w sc1 -> sceneRatio w sc1 <= sceneRatio w sc2 ->
  pixelSize (updateViewerParameters w sc1 vp1)
  <= pixelSize (updateViewerParameters w sc2 vp2) /\
  (sceneRatio w sc1 < sceneRatio w sc2 -> sceneRatio w sc2 <= 1 ->
   pixelSize (updateViewerParameters w sc1 vp1)
   < pixelSize (updateViewerParameters w sc2 vp2)).
Proof.
  intros _ H1 H2 Hpos Hle.
  rewrite (pixelSize_onGlobe _ _ vp1 H1), (pixelSize_onGlobe _ _ vp2 H2).
  destruct (Rgt_dec (1000 * sceneRatio w sc1) 0) as [_ | Hn]; [| lra].
  destruct (Rgt_dec (1000 * sceneRatio w sc2) 0) as [_ | Hn]; [| lra].
  split; [| intros Hlt Hone]; minmax_cases; lra.
Qed.

Lemma pixelSize_grows_with_ratio_witness :
  pixelSize (updateViewerParameters shearField narrowView (initialViewerParameters SCENE3D))
  <= pixelSize (updateViewerParameters shearField wideView (initialViewerParameters SCENE2D)).
Proof.
  apply (pixelSize_grows_with_ratio shearField narrowView wideView).
  - apply shearField_validBounds.
  - apply viewOf_onGlobe.
  - apply viewOf_onGlobe.
  - rewrite narrowView_ratio. lra.
  - rewrite narrowView_ratio, wideView_ratio. lra.
Defined.

(** C2 fails as stated.  The close-up shows the smaller fraction of the
    field (0.22 against 1) and gets the smaller pixel size (220 against
    1000). *)
Lemma zooming_in_lowers_pixelSize :
  onGlobe wideView /\ onGlobe narrowView /\
  sceneRatio shearField narrowView < sceneRatio shearField wideView /\
  pixelSize (updateViewerParameters shearField narrowView (initialViewerParameters SCENE3D))
  < pixelSize (updateViewerParameters shearField wideView (initialViewerParameters SCENE3D)).
Proof.
  split; [apply viewOf_onGlobe |]. split; [apply viewOf_onGlobe |].
  rewrite !pixelSize_onGlobe by apply viewOf_onGlobe.
  rewrite narrowView_ratio, wideView_ratio.
  split; [lra |].
  destruct (Rgt_dec (1000 * 0.22) 0) as [_ | Hn]; [| lra].
  destruct (Rgt_dec (1000 * 1) 0) as [_ | Hn]; [| lra].
  minmax. lra.
Qed.

(** C4.  Every recomputation sets the scene mode to the mode of the scene.
    When a corner does not project onto the globe, the two ranges and the
    pixel size keep their previous values. *)
Theorem off_globe_keeps_ranges (w : RequiredWindData) (sc : Scene) (vp : ViewerParameters) :
  sceneMode (updateViewerParameters w sc vp) = mode sc /\
  (offGlobe sc ->
   lonRange (updateViewerParameters w sc vp) = lonRange vp /\
   latRange (updateViewerParameters w sc vp) = latRange vp /\
   pixelSize (updateViewerParameters w sc vp) = pixelSize vp).
Proof.
  split; [reflexivity |].
  intros Hoff. rewrite (updateViewerParameters_offGlobe _ _ _ Hoff). auto.
Qed.

Lemma off_globe_keeps_ranges_witness :
  let vp := mkViewerParameters (Cartesian2.mk 1 2) (Cartesian2.mk 3 4) 220 SCENE3D in
  let vp' := updateViewerParameters shearField horizonView vp in
  offGlobe horizonView /\
  sceneMode vp' = COLUMBUS_VIEW /\
  lonRange vp' = Cartesian2.mk 1 2 /\ latRange vp' = Cartesian2.mk 3 4 /\
  pixelSize vp' = 220.
Proof.
  intros vp vp'.
  destruct (off_globe_keeps_ranges shearField horizonView vp) as [Hmode Hkeep].
  split; [apply horizonView_offGlobe |].
  split; [exact Hmode |].
  exact (Hkeep horizonView_offGlobe).
Defined.

(** From the state of the constructor, the pixel size stays within
    [0, 1000] along every sequence of recomputations. *)
Lemma pixelSize_bounded (w : RequiredWindData) (sc : Scene) (vp : ViewerParameters) :
  0 <= pixelSize vp <= 1000 ->
  0 <= pixelSize (updateViewerParameters w sc vp) <= 1000.
Proof.
  intros H. unfold updateViewerParameters. cbn [pixelSize].
  destruct (isOutsideGlobe _); [exact H |].
  unfold onGlobeUpdate. cbn [pixelSize].
  destruct (Rgt_dec _ 0); [| exact H]. minmax_cases; lra.
Qed.

Lemma pixelSize_bounded_trace (ws : list (RequiredWindData * Scene)) (m : SceneMode) :
  let vp := fold_left (fun vp e => updateViewerParameters (fst e) (snd e) vp)
                      ws (initialViewerParameters m) in
  0 <= pixelSize vp <= 1000.
Proof.
  cbn zeta.
  assert (H : 0 <= pixelSize (initialViewerParameters m) <= 1000) by (cbn; lra).
  revert H. generalize (initialViewerParameters m).
  induction ws as [| e rest IH]; intros vp H; [exact H |].
  cbn [fold_left]. apply IH. now apply pixelSize_bounded.
Qed.

(** ** The life cycle of the layer *)

Section LayerProperties.

Import Layer.

Context {utils : Utils}.

Lemma fold_left_invariant {A B : Type} (P : A -> Prop) (f : A -> B -> A) (l : list B) (a : A) :
  (forall x b, P x -> P (f x b)) -> P a -> P (fold_left f l a).
Proof.
  intros Hf. revert a. induction l as [| b rest IH]; intros a Ha; [exact Ha |].
  cbn [fold_left]. apply IH. now apply Hf.
Qed.

Lemma updateWindData_destroyed (data : WindData) (s : t) :
  _isDestroyed s = true -> updateWindData data s = s.
Proof. intros H. unfold updateWindData. now rewrite H. Qed.

Lemma updateOptions_destroyed (opts : PartialOptions) (s : t) :
  _isDestroyed s = true -> updateOptions opts s = s.
Proof. intros H. unfold updateOptions. now rewrite H. Qed.

Lemma destroy_isDestroyed (s : t) : _isDestroyed (destroy s) = true.
Proof. reflexivity. Qed.

(** No call clears the flag that [destroy] sets. *)
Lemma step_stays_destroyed (s : t) (c : Call) :
  _isDestroyed s = true -> _isDestroyed (step s c) = true.
Proof.
  intros H. destruct c; cbn [step].
  - now rewrite updateWindData_destroyed.
  - now rewrite updateOptions_destroyed.
  - unfold setShowProperty. destruct (Bool.eqb (_show s) value); [exact H |].
    unfold updatePrimitivesVisibility.
    apply (fold_left_invariant (fun st => _isDestroyed st = true)); [| exact H].
    intros x b Hx. exact Hx.
  - exact H.
  - exact H.
  - exact H.
  - reflexivity.
  - unfold addEventListener.
    destruct (getListeners ty _); [| destruct (getListeners ty _)]; exact H.
  - unfold removeEventListener. destruct (getListeners ty _); exact H.
  - unfold fireCameraChanged.
    apply (fold_left_invariant (fun st => _isDestroyed st = true)); [| exact H].
    intros x [n | n] Hx; exact Hx.
Qed.

Lemma run_stays_destroyed (cs : list Call) (s : t) :
  _isDestroyed s = true -> _isDestroyed (run cs s) = true.
Proof.
  intros H. unfold run.
  apply (fold_left_invariant (fun st => _isDestroyed st = true)); [| exact H].
  intros x c Hx. now apply step_stays_destroyed.
Qed.

(** C9.  Once [destroy] has run, and whatever is called afterwards,
    [isDestroyed] answers true, and [updateWindData] and [updateOptions]
    return the state they were given: the field, the options, the calls to
    the particle system and the notifications are the same as before. *)
Theorem updates_after_destroy_are_noops
        (s : t) (cs : list Call) (data : WindData) (opts : PartialOptions) :
  let s' := run cs (destroy s) in
  isDestroyed s' = true /\
  updateWindData data s' = s' /\
  updateOptions opts s' = s' /\
  windData (updateWindData data s') = windData s' /\
  options (updateOptions opts s') = options s' /\
  trace (host (updateWindData data s')) = trace (host s') /\
  trace (host (updateOptions opts s')) = trace (host s').
Proof.
  intros s'.
  assert (H : _isDestroyed s' = true)
    by (apply run_stays_destroyed, destroy_isDestroyed).
  rewrite (updateWindData_destroyed data s' H), (updateOptions_destroyed opts s' H).
  repeat split. exact H.
Qed.

(** On a layer that is not destroyed the same call replaces the field,
    reaches the particle system and notifies the subscriber. *)
Lemma live_update_notifies (cb : Callback) :
  let s := addEventListener dataChange cb (constructor emptyHost gustField noOptions) in
  let d := processWindData calmField in
  windData (updateWindData calmField s) = d /\
  trace (host (updateWindData calmField s))
  = trace (host s) ++ [EngineUpdateWindData d; RequestRender; Notified cb (DataPayload d)].
Proof. split; reflexivity. Qed.

(** *** The viewport listeners *)

Lemma listener_eqb_eq (a b : Listener) : listener_eqb a b = true -> a = b.
Proof.
  destruct a as [n | n], b as [m | m]; cbn; intros H;
    try discriminate; apply Nat.eqb_eq in H; now subst.
Qed.

Lemma removeListener_absent (f : Listener) (l : list Listener) :
  ~ In f l -> removeListener f l = l.
Proof.
  induction l as [| g rest IH]; intros H; [reflexivity |].
  cbn [removeListener]. destruct (listener_eqb f g) eqn:E.
  - apply listener_eqb_eq in E. subst g. exfalso. apply H. now left.
  - rewrite IH; [reflexivity |]. intros Hin. apply H. now right.
Qed.

(** The three registrations after [new WindLayer]. *)
Lemma constructor_registers (h : Host) (data : WindData) (opts : PartialOptions) :
  let s := constructor h data opts in
  cameraChanged (host s) = cameraChanged h ++ [Bound (bindCount h)] /\
  morphComplete (host s) = morphComplete h ++ [Bound (S (bindCount h))] /\
  windowResize (host s) = windowResize h ++ [Bound (S (S (bindCount h)))] /\
  bindCount (host s) = S (S (S (bindCount h))).
Proof. repeat split; reflexivity. Qed.

(** What [destroy] does to the three registrations. *)
Lemma destroy_unregisters (s : t) :
  let n := bindCount (host s) in
  cameraChanged (host (destroy s)) = removeListener (Bound n) (cameraChanged (host s)) /\
  morphComplete (host (destroy s))
  = removeListener (Bound (S n)) (morphComplete (host s)) /\
  windowResize (host (destroy s))
  = removeListener (Bound (S (S n))) (windowResize (host s)).
Proof. repeat split; reflexivity. Qed.

Lemma not_in_snoc (f g : Listener) (l : list Listener) :
  ~ In f l -> f <> g -> ~ In f (l ++ [g]).
Proof.
  intros Hl Hg Hin. apply in_app_or in Hin. destruct Hin as [Hin | [Heq | []]].
  - now apply Hl.
  - now apply Hg.
Qed.

(** C10 does not hold of the code.  [destroy] asks the camera, the scene
    and the window to remove three functions that it has just created, not
    the three that the constructor registered: the registrations are the
    same after [destroy] as before, with the three handlers of the layer
    still in them. *)
Theorem destroy_keeps_viewport_listeners
        (h : Host) (data : WindData) (opts : PartialOptions) :
  freshBinds h ->
  let s := constructor h data opts in
  let s' := destroy s in
  cameraChanged (host s') = cameraChanged (host s) /\
  morphComplete (host s') = morphComplete (host s) /\
  windowResize (host s') = windowResize (host s) /\
  In (Bound (bindCount h)) (cameraChanged (host s')) /\
  In (Bound (S (bindCount h))) (morphComplete (host s')) /\
  In (Bound (S (S (bindCount h)))) (windowResize (host s')).
Proof.
  intros Hfresh s s'.
  destruct (constructor_registers h data opts) as (Hc & Hm & Hr & Hn).
  destruct (destroy_unregisters s) as (Hc' & Hm' & Hr').
  fold s in Hc, Hm, Hr, Hn. fold s' in Hc', Hm', Hr'.
  rewrite Hn in Hc', Hm', Hr'.
  set (n := bindCount h) in *.
  destruct (Hfresh (S (S (S n)))) as (F1 & _ & _); [subst n; lia |].
  destruct (Hfresh (S (S (S (S n))))) as (_ & F2 & _); [subst n; lia |].
  destruct (Hfresh (S (S (S (S (S n)))))) as (_ & _ & F3); [subst n; lia |].
  assert (Ec : cameraChanged (host s') = cameraChanged (host s)).
  { rewrite Hc', Hc. apply removeListener_absent, not_in_snoc; [exact F1 |].
    intros E. injection E. lia. }
  assert (Em : morphComplete (host s') = morphComplete (host s)).
  { rewrite Hm', Hm. apply removeListener_absent, not_in_snoc; [exact F2 |].
    intros E. injection E. lia. }
  assert (Er : windowResize (host s') = windowResize (host s)).
  { rewrite Hr', Hr. apply removeListener_absent, not_in_snoc; [exact F3 |].
    intros E. injection E. lia. }
  repeat split; try assumption.
  - rewrite Ec, Hc. apply in_or_app. right. now left.
  - rewrite Em, Hm. apply in_or_app. right. now left.
  - rewrite Er, Hr. apply in_or_app. right. now left.
Qed.

Lemma emptyHost_fresh : freshBinds emptyHost.
Proof. intros n _. cbn. tauto. Qed.

Lemma destroy_keeps_viewport_listeners_witness :
  let s' := destroy (constructor emptyHost gustField noOptions) in
  cameraChanged (host s') = [Bound 0] /\
  morphComplete (host s') = [Bound 1] /\
  windowResize (host s') = [Bound 2] /\
  isDestroyed s' = true.
Proof.
  intros s'.
  destruct (destroy_keeps_viewport_listeners emptyHost gustField noOptions emptyHost_fresh)
    as (Hc & Hm & Hr & _).
  fold s' in Hc, Hm, Hr.
  rewrite Hc, Hm, Hr. repeat split.
Defined.

Lemma destroy_trace (s : t) :
  trace (host (destroy s)) = trace (host s) ++ [EngineDestroy].
Proof. reflexivity. Qed.

Lemma fireCameraChanged_single (sc : Scene) (s : t) (n : nat) :
  cameraChanged (host s) = [Bound n] ->
  trace (host (fireCameraChanged sc s))
  = trace (host s)
      ++ [EngineApplyViewerParameters
            (Viewport.updateViewerParameters (windData s) sc (viewerParameters s))].
Proof.
  intros H. unfold fireCameraChanged.
  replace (cameraChanged (host (withHost (setScene sc) s))) with [Bound n]
    by (symmetry; exact H).
  reflexivity.
Qed.

(** After [destroy], a move of the camera still runs the handler of the
    layer, which hands new viewer parameters to the particle system that
    [destroy] has released. *)
Lemma camera_moves_after_destroy (sc : Scene) :
  let s := destroy (constructor emptyHost gustField noOptions) in
  exists vp, trace (host (fireCameraChanged sc s))
             = trace (host s) ++ [EngineApplyViewerParameters vp] /\
             In EngineDestroy (trace (host s)).
Proof.
  intros s. eexists. split.
  - apply (fireCameraChanged_single sc s 0). reflexivity.
  - subst s. rewrite destroy_trace. apply in_or_app. right. now left.
Qed.

End LayerProperties.

(** * Further properties *)

(** ** processWindData: shapes and ranges *)

Lemma fold_min_Num (l : list R) (a : R) :
  fold_left Js.min (map Num l) (Num a) = Num (fold_left Rmin l a).
Proof.
  revert a. induction l as [| x t IH]; intros a; [reflexivity |].
  cbn [map fold_left Js.min]. apply IH.
Qed.

Lemma fold_max_Num (l : list R) (a : R) :
  fold_left Js.max (map Num l) (Num a) = Num (fold_left Rmax l a).
Proof.
  revert a. induction l as [| x t IH]; intros a; [reflexivity |].
  cbn [map fold_left Js.max]. apply IH.
Qed.

Lemma min_NaN_r (a : number) : Js.min a NaN = NaN.
Proof. destruct a as [r | [|] |]; reflexivity. Qed.

Lemma max_NaN_r (a : number) : Js.max a NaN = NaN.
Proof. destruct a as [r | [|] |]; reflexivity. Qed.

Lemma fold_min_from_NaN (l : list number) : fold_left Js.min l NaN = NaN.
Proof. induction l as [| x t IH]; [reflexivity | exact IH]. Qed.

Lemma fold_max_from_NaN (l : list number) : fold_left Js.max l NaN = NaN.
Proof. induction l as [| x t IH]; [reflexivity | exact IH]. Qed.

Lemma fold_min_NaN (l : list number) (a : number) :
  In NaN l -> fold_left Js.min l a = NaN.
Proof.
  revert a. induction l as [| x t IH]; intros a Hin; [destruct Hin |].
  cbn [fold_left]. destruct Hin as [-> | Hin].
  - rewrite min_NaN_r. apply fold_min_from_NaN.
  - now apply IH.
Qed.

Lemma fold_max_NaN (l : list number) (a : number) :
  In NaN l -> fold_left Js.max l a = NaN.
Proof.
  revert a. induction l as [| x t IH]; intros a Hin; [destruct Hin |].
  cbn [fold_left]. destruct Hin as [-> | Hin].
  - rewrite max_NaN_r. apply fold_max_from_NaN.
  - now apply IH.
Qed.

Lemma fold_Rmin_le (l : list R) (a : R) :
  fold_left Rmin l a <= a /\ forall x, In x l -> fold_left Rmin l a <= x.
Proof.
  revert a. induction l as [| y t IH]; intros a.
  - split; [apply Rle_refl | intros x []].
  - cbn [fold_left]. destruct (IH (Rmin a y)) as [H1 H2]. split.
    + apply Rle_trans with (Rmin a y); [exact H1 | apply Rmin_l].
    + intros x [<- | Hx]; [| now apply H2].
      apply Rle_trans with (Rmin a y); [exact H1 | apply Rmin_r].
Qed.

Lemma fold_Rmax_ge (l : list R) (a : R) :
  a <= fold_left Rmax l a /\ forall x, In x l -> x <= fold_left Rmax l a.
Proof.
  revert a. induction l as [| y t IH]; intros a.
  - split; [apply Rle_refl | intros x []].
  - cbn [fold_left]. destruct (IH (Rmax a y)) as [H1 H2]. split.
    + apply Rle_trans with (Rmax a y); [apply Rmax_l | exact H1].
    + intros x [<- | Hx]; [| now apply H2].
      apply Rle_trans with (Rmax a y); [apply Rmax_r | exact H1].
Qed.

Lemma fold_Rmin_attained (l : list R) (a : R) :
  In (fold_left Rmin l a) l \/ fold_left Rmin l a = a.
Proof.
  revert a. induction l as [| y t IH]; intros a; [now right |].
  cbn [fold_left]. destruct (IH (Rmin a y)) as [Hin | Heq].
  - left. now right.
  - rewrite Heq. unfold Rmin. destruct (Rle_dec a y); [now right | left; now left].
Qed.

Lemma fold_Rmax_attained (l : list R) (a : R) :
  In (fold_left Rmax l a) l \/ fold_left Rmax l a = a.
Proof.
  revert a. induction l as [| y t IH]; intros a; [now right |].
  cbn [fold_left]. destruct (IH (Rmax a y)) as [Hin | Heq].
  - left. now right.
  - rewrite Heq. unfold Rmax. destruct (Rle_dec a y); [left; now left | now right].
Qed.

(** A loop over the indices of an array that reads each element once is a
    fold over the array. *)
Lemma fold_indices {A : Type} (g : A -> number -> A) (l2 l1 : list number) (a : A) :
  fold_left (fun acc i => g acc (toNumber (read (l1 ++ l2) i)))
            (seq (length l1) (length l2)) a
  = fold_left g l2 a.
Proof.
  revert l1 a. induction l2 as [| x t IH]; intros l1 a; [reflexivity |].
  cbn [length seq fold_left].
  rewrite (read_middle l1 t x (length l1) eq_refl). cbn [toNumber].
  specialize (IH (l1 ++ [x]) (g a x)).
  rewrite <- app_assoc, length_app in IH. cbn [app length] in IH.
  rewrite Nat.add_1_r in IH. exact IH.
Qed.

Lemma fold_pair (l : list number) (a b : number) :
  fold_left (fun mm x => (Js.min (fst mm) x, Js.max (snd mm) x)) l (a, b)
  = (fold_left Js.min l a, fold_left Js.max l b).
Proof.
  revert a b. induction l as [| x t IH]; intros a b; [reflexivity |].
  cbn [fold_left fst snd]. apply IH.
Qed.

Lemma maskRange_folds (ma : list number) :
  maskRange ma
  = (fold_left Js.min ma (Num MAX_VALUE), fold_left Js.max ma (Num MIN_VALUE)).
Proof.
  unfold maskRange.
  rewrite (fold_indices (fun mm x => (Js.min (fst mm) x, Js.max (snd mm) x)) ma []).
  apply fold_pair.
Qed.

Lemma deriveSpeed_length (ua va : list number) :
  length (array (deriveSpeed ua va)) = length ua.
Proof.
  destruct (deriveSpeed_spec ua va) as [Harr _]. cbn zeta in Harr.
  now rewrite Harr, length_map, length_seq.
Qed.

(** X1.  [processWindData] keeps the shape of the field: u, v, the grid size
    and the bounds are the ones it was given, and when every axis of the
    input has one sample per cell, so have the speed and the mask of the
    result, derived or not. *)
Theorem processWindData_keeps_shape (w : WindData) :
  length (array (u w)) = gridSize w ->
  (forall s, speed w = Some s -> length (array s) = gridSize w) ->
  (forall m, mask w = Some m -> length (array m) = gridSize w) ->
  u (processWindData w) = u w /\ v (processWindData w) = v w /\
  width (processWindData w) = width w /\ height (processWindData w) = height w /\
  bounds (processWindData w) = bounds w /\
  length (array (speed (processWindData w))) = gridSize (processWindData w) /\
  length (array (mask (processWindData w))) = gridSize (processWindData w).
Proof.
  intros Hu Hs Hm. repeat split.
  - unfold processWindData, gridSize. cbn [speed width height]. fold (gridSize w).
    unfold processSpeed. destruct (speed w) as [s |] eqn:Es.
    + destruct (speedIncomplete w).
      * now rewrite deriveSpeed_length.
      * now apply Hs.
    + now rewrite deriveSpeed_length.
  - unfold processWindData, gridSize. cbn [mask width height]. fold (gridSize w).
    unfold processMask. destruct (mask w) as [m |] eqn:Em.
    + destruct (min m), (max m); cbn [array]; now apply Hm.
    + cbn [array]. now rewrite repeat_length.
Qed.

Lemma processWindData_keeps_shape_witness :
  length (array (speed (processWindData maskedField))) = 4%nat /\
  length (array (mask (processWindData maskedField))) = 4%nat /\
  length (array (mask (processWindData gustField))) = 4%nat.
Proof.
  assert (Hm : forall (w : WindData) (n : nat),
             length (array (u w)) = gridSize w ->
             (forall s, speed w = Some s -> length (array s) = gridSize w) ->
             (forall m, mask w = Some m -> length (array m) = gridSize w) ->
             gridSize w = n ->
             length (array (speed (processWindData w))) = n /\
             length (array (mask (processWindData w))) = n).
  { intros w n H1 H2 H3 <-.
    destruct (processWindData_keeps_shape w H1 H2 H3) as (_ & _ & _ & _ & _ & Hs & Hk).
    split; assumption. }
  destruct (Hm maskedField 4%nat) as [Hs Hk]; try reflexivity.
  - intros s Hs. discriminate.
  - intros m Hk. injection Hk as <-. reflexivity.
  - destruct (Hm gustField 4%nat) as [_ Hg]; try reflexivity.
    + intros s Hs'. discriminate.
    + intros m Hk'. discriminate.
    + repeat split; assumption.
Defined.

(** X2.  When the mask comes without its minimum or its maximum, the scan
    keeps the samples and, for samples that are numbers, returns a minimum
    below every sample and a maximum above every sample.  The scan starts
    from [Number.MAX_VALUE] and from [Number.MIN_VALUE], the smallest
    positive number: the maximum is never below it, so a mask of zeros gets
    a positive maximum, and an empty mask gets the two starting values. *)
Theorem provided_mask_range (w : WindData) (m : Axis) (ms : list R) :
  mask w = Some m -> min m = None \/ max m = None -> array m = map Num ms ->
  exists lo hi,
    mask (processWindData w) = mkAxis (array m) (Some (Num lo)) (Some (Num hi)) /\
    (forall x, In x ms -> lo <= x <= hi) /\
    lo <= MAX_VALUE /\ MIN_VALUE <= hi /\
    (In lo ms \/ lo = MAX_VALUE) /\ (In hi ms \/ hi = MIN_VALUE) /\
    ((forall x, In x ms -> x <= 0) -> hi = MIN_VALUE).
Proof.
  intros Hm Hnone Harr.
  exists (fold_left Rmin ms MAX_VALUE), (fold_left Rmax ms MIN_VALUE).
  destruct (fold_Rmin_le ms MAX_VALUE) as [Hlo1 Hlo2].
  destruct (fold_Rmax_ge ms MIN_VALUE) as [Hhi1 Hhi2].
  split; [| split; [| split; [| split; [| split; [| split]]]]].
  - unfold processWindData. cbn [mask]. unfold processMask. rewrite Hm.
    assert (E : mkAxis (array m) (Some (fst (maskRange (array m))))
                       (Some (snd (maskRange (array m))))
                = mkAxis (array m) (Some (Num (fold_left Rmin ms MAX_VALUE)))
                         (Some (Num (fold_left Rmax ms MIN_VALUE)))).
    { rewrite maskRange_folds. cbn [fst snd]. rewrite Harr.
      now rewrite fold_min_Num, fold_max_Num. }
    destruct Hnone as [Hn | Hn]; rewrite Hn; [| destruct (min m)]; exact E.
  - intros x Hx. split; [now apply Hlo2 | now apply Hhi2].
  - exact Hlo1.
  - exact Hhi1.
  - apply fold_Rmin_attained.
  - apply fold_Rmax_attained.
  - intros Hneg.
    assert (G : forall l b, 0 < b -> (forall x, In x l -> x <= 0) -> fold_left Rmax l b = b).
    { induction l as [| y t IH]; intros b Hb Hl; [reflexivity |].
      cbn [fold_left]. rewrite Rmax_left by (specialize (Hl y (or_introl eq_refl)); lra).
      apply IH; [exact Hb |]. intros x Hx. apply Hl. now right. }
    apply G; [apply MIN_VALUE_pos | exact Hneg].
Qed.

Lemma provided_mask_range_witness :
  exists lo hi,
    mask (processWindData maskedField)
    = mkAxis (map Num [0; 1; 0; 1]) (Some (Num lo)) (Some (Num hi)) /\
    lo <= 0 /\ 1 <= hi.
Proof.
  destruct (provided_mask_range maskedField (rawAxis [0; 1; 0; 1]) [0; 1; 0; 1]
              eq_refl (or_introl eq_refl) eq_refl)
    as (lo & hi & Hmask & Hall & _).
  exists lo, hi. split; [exact Hmask |].
  split; [apply (Hall 0) | apply (Hall 1)]; cbn; auto.
Defined.

(** *** The derived speed axis on numbers, and on axes of different lengths *)


Lemma magnitude_without_v (ua va : list number) (i : nat) :
  read va i = None -> magnitude ua va i = NaN.
Proof.
  intros Hv. unfold magnitude. rewrite Hv. cbn [toNumber].
  destruct (toNumber (read ua i)) as [r | [|] |]; reflexivity.
Qed.







(** X4.  A v axis shorter than the u axis is not refused.  The speed axis
    is derived all the same: its samples at the indices that v does not have
    are [NaN], and so are its minimum and its maximum. *)
Theorem short_v_gives_NaN_range (w : WindData) :
  speedIncomplete w = true ->
  (length (array (v w)) < length (array (u w)))%nat ->
  let s := speed (processWindData w) in
  length (array s) = length (array (u w)) /\
  (forall i, (length (array (v w)) <= i < length (array (u w)))%nat ->
             read (array s) i = Some NaN) /\
  min s = Some NaN /\ max s = Some NaN.
Proof.
  intros Hinc Hlen s.
  assert (Hs : s = deriveSpeed (array (u w)) (array (v w))).
  { subst s. unfold processWindData, processSpeed. cbn [speed].
    destruct (speed w); [rewrite Hinc |]; reflexivity. }
  destruct (deriveSpeed_spec (array (u w)) (array (v w))) as (Harr & Hmin & Hmax).
  cbn zeta in Harr, Hmin, Hmax. rewrite <- Hs in Harr, Hmin, Hmax.
  assert (Hread : forall i, (length (array (v w)) <= i < length (array (u w)))%nat ->
                            read (array s) i = Some NaN).
  { intros i Hi. rewrite Harr. unfold read.
    rewrite nth_error_map, (nth_error_nth' _ 0%nat) by (rewrite length_seq; lia).
    rewrite seq_nth by lia. cbn [option_map Nat.add]. f_equal.
    unfold storedMagnitude. rewrite magnitude_without_v; [reflexivity |].
    unfold read. apply nth_error_None. lia. }
  assert (Hin : In NaN (filter neq0 (array s))).
  { apply filter_In. split; [| reflexivity].
    apply (nth_error_In _ (length (array (v w)))). apply Hread. lia. }
  split; [rewrite Harr; now rewrite length_map, length_seq |].
  split; [exact Hread |].
  split.
  - rewrite Hmin. f_equal. now apply fold_min_NaN.
  - rewrite Hmax. f_equal. now apply fold_max_NaN.
Qed.

Lemma short_v_gives_NaN_range_witness :
  read (array (speed (processWindData raggedField))) 2 = Some NaN /\
  min (speed (processWindData raggedField)) = Some NaN /\
  max (speed (processWindData raggedField)) = Some NaN.
Proof.
  assert (Hlen : (length (array (v raggedField)) < length (array (u raggedField)))%nat)
    by (cbn; lia).
  destruct (short_v_gives_NaN_range raggedField eq_refl Hlen) as (_ & Hread & Hmin & Hmax).
  split; [apply Hread; cbn; lia |]. split; assumption.
Defined.

(** ** getDataAtLonLat: reads and interpolation *)

Lemma sum_squares_nonneg (p q : R) : 0 <= p * p + q * q.
Proof. nra. Qed.

(** A weighted mean of four values with weights in [0, 1] stays between
    their bounds. *)
Lemma bilinear_between (wx wy a b c d lo hi : R) :
  0 <= wx <= 1 -> 0 <= wy <= 1 ->
  lo <= a <= hi -> lo <= b <= hi -> lo <= c <= hi -> lo <= d <= hi ->
  lo <= (1 - wx) * (1 - wy) * a + wx * (1 - wy) * b + (1 - wx) * wy * c + wx * wy * d <= hi.
Proof.
  intros Hx Hy Ha Hb Hc Hd.
  assert (W00 : 0 <= (1 - wx) * (1 - wy)) by (apply Rmult_le_pos; lra).
  assert (W10 : 0 <= wx * (1 - wy)) by (apply Rmult_le_pos; lra).
  assert (W01 : 0 <= (1 - wx) * wy) by (apply Rmult_le_pos; lra).
  assert (W11 : 0 <= wx * wy) by (apply Rmult_le_pos; lra).
  split.
  - assert (P00 : 0 <= (1 - wx) * (1 - wy) * (a - lo)) by (apply Rmult_le_pos; lra).
    assert (P10 : 0 <= wx * (1 - wy) * (b - lo)) by (apply Rmult_le_pos; lra).
    assert (P01 : 0 <= (1 - wx) * wy * (c - lo)) by (apply Rmult_le_pos; lra).
    assert (P11 : 0 <= wx * wy * (d - lo)) by (apply Rmult_le_pos; lra).
    lra.
  - assert (P00 : 0 <= (1 - wx) * (1 - wy) * (hi - a)) by (apply Rmult_le_pos; lra).
    assert (P10 : 0 <= wx * (1 - wy) * (hi - b)) by (apply Rmult_le_pos; lra).
    assert (P01 : 0 <= (1 - wx) * wy * (hi - c)) by (apply Rmult_le_pos; lra).
    assert (P11 : 0 <= wx * wy * (hi - d)) by (apply Rmult_le_pos; lra).
    lra.
Qed.

(** The cell of the floor and its neighbours, for a query inside the bounds
    of a well-formed field. *)
Lemma query_cells (w : RequiredWindData) (flipY : bool) (lon lat : R) :
  wellFormed w ->
  west (bounds w) <= lon <= east (bounds w) ->
  south (bounds w) <= lat <= north (bounds w) ->
  let x0 := floor (xNorm w lon) in
  let y0 := floor (yNorm w flipY lat) in
  outOfBounds (bounds w) lon lat = false /\
  (0 <= x0 <= width w - 1)%Z /\ (0 <= y0 <= height w - 1)%Z /\
  (0 <= Z.min (x0 + 1) (width w - 1) <= width w - 1)%Z /\
  (0 <= Z.min (y0 + 1) (height w - 1) <= height w - 1)%Z /\
  0 <= xNorm w lon - IZR x0 <= 1 /\ 0 <= yNorm w flipY lat - IZR y0 <= 1.
Proof.
  intros (Hw & Hh & _ & _ & Hb) Hlon Hlat x0 y0.
  assert (Hx : (0 <= x0 <= width w - 1)%Z)
    by (apply floor_range; now apply xNorm_range).
  assert (Hy : (0 <= y0 <= height w - 1)%Z)
    by (apply floor_range; now apply yNorm_range).
  pose proof (floor_bounds (xNorm w lon)) as Fx.
  pose proof (floor_bounds (yNorm w flipY lat)) as Fy.
  fold x0 in Fx. fold y0 in Fy.
  split; [apply outOfBounds_false; split; assumption |].
  repeat split; try lia; lra.
Qed.

(** X5.  For a well-formed field whose speed axis has one sample per cell
    too, a query inside the bounds, edges included, reads inside the arrays
    only: the three original values are samples of their axes, and when the
    u and v samples are real numbers the three interpolated values are real
    numbers. *)
Theorem in_bounds_reads_are_defined
        (w : RequiredWindData) (flipY : bool) (lon lat : R) :
  wellFormed w -> length (array (speed w)) = gridSize w ->
  west (bounds w) <= lon <= east (bounds w) ->
  south (bounds w) <= lat <= north (bounds w) ->
  exists r,
    getDataAtLonLat w flipY lon lat = Some r /\
    (exists a b c,
        original r = mkTriple (Some a) (Some b) (Some c) /\
        In a (array (u w)) /\ In b (array (v w)) /\ In c (array (speed w))) /\
    (allNum (array (u w)) -> allNum (array (v w)) ->
     exists p q,
       interpolated r = mkTriple (Num p) (Num q) (Num (R_sqrt.sqrt (p * p + q * q)))).
Proof.
  intros Hwf Hls Hlon Hlat.
  destruct (query_cells w flipY lon lat Hwf Hlon Hlat)
    as (Hin & Hx0 & Hy0 & Hx1 & Hy1 & _).
  destruct Hwf as (Hw & Hh & Hlu & Hlv & Hb).
  set (x0 := floor (xNorm w lon)) in *.
  set (y0 := floor (yNorm w flipY lat)) in *.
  eexists. split.
  - apply (getDataAtLonLat_at w flipY lon lat x0 y0 Hin); apply floor_bounds.
  - assert (Hcell : forall (a : list number) x y,
               length a = gridSize w ->
               (0 <= x <= width w - 1)%Z -> (0 <= y <= height w - 1)%Z ->
               (0 <= y * width w + x < Z.of_nat (length a))%Z).
    { intros a x y Hl Hx Hy. rewrite Hl. unfold gridSize. now apply cell_index_range. }
    cbn [original interpolated]. split.
    + destruct (readZ_defined _ _ (Hcell _ x0 y0 Hlu Hx0 Hy0)) as (a & Ea & Ia).
      destruct (readZ_defined _ _ (Hcell _ x0 y0 Hlv Hx0 Hy0)) as (b & Eb & Ib).
      destruct (readZ_defined _ _ (Hcell _ x0 y0 Hls Hx0 Hy0)) as (c & Ec & Ic).
      exists a, b, c. rewrite Ea, Eb, Ec. auto.
    + intros Hu Hv.
      destruct (readZ_Num _ _ Hu (Hcell _ x0 y0 Hlu Hx0 Hy0)) as [u00 E00].
      destruct (readZ_Num _ _ Hu (Hcell _ _ y0 Hlu Hx1 Hy0)) as [u10 E10].
      destruct (readZ_Num _ _ Hu (Hcell _ x0 _ Hlu Hx0 Hy1)) as [u01 E01].
      destruct (readZ_Num _ _ Hu (Hcell _ _ _ Hlu Hx1 Hy1)) as [u11 E11].
      destruct (readZ_Num _ _ Hv (Hcell _ x0 y0 Hlv Hx0 Hy0)) as [v00 F00].
      destruct (readZ_Num _ _ Hv (Hcell _ _ y0 Hlv Hx1 Hy0)) as [v10 F10].
      destruct (readZ_Num _ _ Hv (Hcell _ x0 _ Hlv Hx0 Hy1)) as [v01 F01].
      destruct (readZ_Num _ _ Hv (Hcell _ _ _ Hlv Hx1 Hy1)) as [v11 F11].
      unfold interpAxis.
      rewrite E00, E10, E01, E11, F00, F10, F01, F11. cbn [toNumber].
      rewrite !bilinear_Num.
      match goal with
      | |- context [mkTriple (Num ?p) (Num ?q) _] => exists p, q
      end.
      cbn [mul add]. rewrite sqrt_Num by apply sum_squares_nonneg. reflexivity.
Qed.

Lemma in_bounds_reads_are_defined_witness :
  exists r a b c,
    getDataAtLonLat shearField false 10 10 = Some r /\
    original r = mkTriple (Some a) (Some b) (Some c) /\
    In a (array (u shearField)).
Proof.
  assert (Hwf : wellFormed shearField).
  { unfold wellFormed, validBounds. cbn. repeat split; try lia; lra. }
  destruct (in_bounds_reads_are_defined shearField false 10 10 Hwf eq_refl)
    as (r & Hr & (a & b & c & Ho & Ha & _) & _); [cbn; lra | cbn; lra |].
  exists r, a, b, c. repeat split; assumption.
Defined.

(** X6.  For a well-formed field and a query inside the bounds, the
    interpolated u lies between any two bounds of the u samples, and the
    interpolated v between any two bounds of the v samples: the
    interpolation never leaves the range of the data. *)
Theorem interpolation_within_sample_range
        (w : RequiredWindData) (flipY : bool) (lon lat : R) (r : WindDataAtLonLat)
        (ulo uhi vlo vhi : R) :
  wellFormed w ->
  getDataAtLonLat w flipY lon lat = Some r ->
  (forall s, In s (array (u w)) -> exists a, s = Num a /\ ulo <= a <= uhi) ->
  (forall s, In s (array (v w)) -> exists a, s = Num a /\ vlo <= a <= vhi) ->
  exists p q,
    pt_u (interpolated r) = Num p /\ ulo <= p <= uhi /\
    pt_v (interpolated r) = Num q /\ vlo <= q <= vhi.
Proof.
  intros Hwf Hr Hu Hv.
  assert (Hin : outOfBounds (bounds w) lon lat = false).
  { unfold getDataAtLonLat in Hr.
    destruct (outOfBounds (bounds w) lon lat); [discriminate | reflexivity]. }
  pose proof Hin as Hll. apply outOfBounds_false in Hll. destruct Hll as [Hlon Hlat].
  destruct (query_cells w flipY lon lat Hwf Hlon Hlat)
    as (_ & Hx0 & Hy0 & Hx1 & Hy1 & Hwx & Hwy).
  destruct Hwf as (Hw & Hh & Hlu & Hlv & Hb).
  set (x0 := floor (xNorm w lon)) in *.
  set (y0 := floor (yNorm w flipY lat)) in *.
  rewrite (getDataAtLonLat_at w flipY lon lat x0 y0 Hin) in Hr by apply floor_bounds.
  injection Hr as <-. cbn [interpolated pt_u pt_v].
  assert (Hcell : forall (a : list number) lo hi x y,
             length a = gridSize w ->
             (forall s, In s a -> exists t, s = Num t /\ lo <= t <= hi) ->
             (0 <= x <= width w - 1)%Z -> (0 <= y <= height w - 1)%Z ->
             exists t, readZ a (y * width w + x) = Some (Num t) /\ lo <= t <= hi).
  { intros a lo hi x y Hl Ha Hx Hy.
    destruct (readZ_defined a (y * width w + x)) as (s & Es & Is).
    - rewrite Hl. unfold gridSize. now apply cell_index_range.
    - destruct (Ha s Is) as (t & -> & Ht). exists t. split; assumption. }
  destruct (Hcell _ _ _ x0 y0 Hlu Hu Hx0 Hy0) as (u00 & E00 & B00).
  destruct (Hcell _ _ _ _ y0 Hlu Hu Hx1 Hy0) as (u10 & E10 & B10).
  destruct (Hcell _ _ _ x0 _ Hlu Hu Hx0 Hy1) as (u01 & E01 & B01).
  destruct (Hcell _ _ _ _ _ Hlu Hu Hx1 Hy1) as (u11 & E11 & B11).
  destruct (Hcell _ _ _ x0 y0 Hlv Hv Hx0 Hy0) as (v00 & F00 & C00).
  destruct (Hcell _ _ _ _ y0 Hlv Hv Hx1 Hy0) as (v10 & F10 & C10).
  destruct (Hcell _ _ _ x0 _ Hlv Hv Hx0 Hy1) as (v01 & F01 & C01).
  destruct (Hcell _ _ _ _ _ Hlv Hv Hx1 Hy1) as (v11 & F11 & C11).
  unfold interpAxis.
  rewrite E00, E10, E01, E11, F00, F10, F01, F11. cbn [toNumber].
  rewrite !bilinear_Num.
  eexists. eexists.
  split; [reflexivity |]. split; [now apply bilinear_between |].
  split; [reflexivity |]. now apply bilinear_between.
Qed.

Lemma shearField_wellFormed : wellFormed shearField.
Proof. unfold wellFormed, validBounds. cbn. repeat split; try lia; lra. Qed.

Lemma interpolation_within_sample_range_witness :
  exists r p q,
    getDataAtLonLat shearField false 3 7 = Some r /\
    pt_u (interpolated r) = Num p /\ -3 <= p <= 3 /\
    pt_v (interpolated r) = Num q /\ 0 <= q <= 0.
Proof.
  destruct (getDataAtLonLat shearField false 3 7) as [r |] eqn:E.
  - destruct (interpolation_within_sample_range shearField false 3 7 r (-3) 3 0 0
                shearField_wellFormed E)
      as (p & q & Hp & Bp & Hq & Bq).
    + intros s Hs. cbn in Hs.
      destruct Hs as [<- | [<- | [<- | [<- | []]]]]; eexists; (split; [reflexivity | lra]).
    + intros s Hs. cbn in Hs.
      destruct Hs as [<- | [<- | [<- | [<- | []]]]]; eexists; (split; [reflexivity | lra]).
    + exists r, p, q. repeat split; try assumption; lra.
  - exfalso. unfold getDataAtLonLat in E.
    replace (outOfBounds (bounds shearField) 3 7) with false in E; [discriminate |].
    symmetry. apply outOfBounds_false. cbn. lra.
Defined.

(** *** The corners of the bounds *)

Lemma getDataAtLonLat_cell (w : RequiredWindData) (flipY : bool) (lon lat : R) (x0 y0 : Z) :
  west (bounds w) <= lon <= east (bounds w) ->
  south (bounds w) <= lat <= north (bounds w) ->
  xNorm w lon = IZR x0 -> yNorm w flipY lat = IZR y0 ->
  exists r, getDataAtLonLat w flipY lon lat = Some r /\
            original r = cellAt w (y0 * width w + x0).
Proof.
  intros Hlon Hlat Hx Hy. eexists. split.
  - apply (getDataAtLonLat_at w flipY lon lat x0 y0).
    + apply outOfBounds_false. split; assumption.
    + rewrite Hx. lra.
    + rewrite Hy. lra.
  - reflexivity.
Qed.

(** X24.  Over bounds with [west < east] and [south < north], the query at
    the south-west corner reads the first cell of the arrays and the query at
    the north-east corner the last cell of the last row; with [flipY] the
    rows are exchanged: south-west reads the first cell of the last row and
    north-east the last cell of the first row. *)
Theorem corner_queries_read_corner_cells (w : RequiredWindData) :
  validBounds (bounds w) ->
  let b := bounds w in
  let W := width w in
  let H := height w in
  (exists r, getDataAtLonLat w false (west b) (south b) = Some r /\
             original r = cellAt w 0) /\
  (exists r, getDataAtLonLat w false (east b) (north b) = Some r /\
             original r = cellAt w ((H - 1) * W + (W - 1))) /\
  (exists r, getDataAtLonLat w true (west b) (south b) = Some r /\
             original r = cellAt w ((H - 1) * W)) /\
  (exists r, getDataAtLonLat w true (east b) (north b) = Some r /\
             original r = cellAt w (W - 1)).
Proof.
  intros [Hlon Hlat] b W H. fold b in Hlon, Hlat.
  assert (Xw : xNorm w (west b) = IZR 0)
    by (unfold xNorm; fold b; rewrite Rminus_diag; unfold Rdiv; ring).
  assert (Xe : xNorm w (east b) = IZR (W - 1))
    by (unfold xNorm; fold b; fold W; field; lra).
  assert (Ys : yNorm w false (south b) = IZR 0)
    by (unfold yNorm; fold b; rewrite Rminus_diag; unfold Rdiv; ring).
  assert (Yn : yNorm w false (north b) = IZR (H - 1))
    by (unfold yNorm; fold b; fold H; field; lra).
  assert (Ys' : yNorm w true (south b) = IZR (H - 1))
    by (unfold yNorm; fold b; fold H; rewrite Rminus_diag, minus_IZR; unfold Rdiv; ring).
  assert (Yn' : yNorm w true (north b) = IZR 0)
    by (unfold yNorm; fold b; fold H; rewrite minus_IZR; field; lra).
  split; [| split; [| split]].
  - destruct (getDataAtLonLat_cell w false (west b) (south b) 0 0) as (r & Hr & Ho);
      try assumption; try (fold b; lra).
    exists r. split; [exact Hr | exact Ho].
  - destruct (getDataAtLonLat_cell w false (east b) (north b) (W - 1) (H - 1))
      as (r & Hr & Ho); try assumption; try (fold b; lra).
    exists r. split; [exact Hr | exact Ho].
  - destruct (getDataAtLonLat_cell w true (west b) (south b) 0 (H - 1))
      as (r & Hr & Ho); try assumption; try (fold b; lra).
    exists r. split; [exact Hr |]. rewrite Ho. f_equal. fold W. lia.
  - destruct (getDataAtLonLat_cell w true (east b) (north b) (W - 1) 0)
      as (r & Hr & Ho); try assumption; try (fold b; lra).
    exists r. split; [exact Hr | exact Ho].
Qed.

Lemma corner_queries_read_corner_cells_witness :
  (exists r, getDataAtLonLat shearField false 10 10 = Some r /\
             pt_u (original r) = Some (Num (-3))) /\
  (exists r, getDataAtLonLat shearField true 0 0 = Some r /\
             pt_u (original r) = Some (Num 3)).
Proof.
  destruct (corner_queries_read_corner_cells shearField shearField_validBounds)
    as (_ & (r1 & H1 & O1) & (r2 & H2 & O2) & _).
  split.
  - exists r1. split; [exact H1 |]. rewrite O1. reflexivity.
  - exists r2. split; [exact H2 |]. rewrite O2. reflexivity.
Defined.

(** ** The viewport tracker: composition and extreme views *)

(** X8.  Recomputing the viewer parameters twice over the same field and
    the same scene gives what recomputing once gives. *)
Theorem updateViewerParameters_idempotent
        (w : RequiredWindData) (sc : Scene) (vp : ViewerParameters) :
  updateViewerParameters w sc (updateViewerParameters w sc vp)
  = updateViewerParameters w sc vp.
Proof.
  unfold updateViewerParameters.
  destruct (isOutsideGlobe (scanCorners (pickLonLat sc) (corners sc) cornerInit));
    [reflexivity |].
  unfold onGlobeUpdate. cbn [lonRange latRange pixelSize sceneMode].
  destruct (Rgt_dec _ 0); reflexivity.
Qed.

Lemma visibleRatio_le_1 (b : Bounds) (acc : CornerAcc) :
  validBounds b ->
  visibleRatio b (visibleLonRange b acc) (visibleLatRange b acc) <= 1.
Proof.
  intros [Hlon _]. unfold visibleRatio, visibleLonRange.
  destruct (addBuffer_clamped (west b) (east b)
              (intersectRange (west b) (east b) (minLon acc) (maxLon acc))) as [Hx Hy].
  eapply Rle_trans; [apply Rmin_l |].
  apply Rmult_le_reg_r with (east b - west b); [lra |].
  unfold Rdiv. rewrite Rmult_assoc, Rinv_l by lra. lra.
Qed.

(** X9.  Over a field with [west < east] and [south < north] the visible
    ratio is at most 1, so the clamp to 1000 changes nothing: after a
    recomputation with the four corners on the globe and a positive ratio,
    the pixel size is exactly 1000 times the ratio. *)
Theorem pixelSize_is_scaled_ratio
        (w : RequiredWindData) (sc : Scene) (vp : ViewerParameters) :
  validBounds (bounds w) ->
  sceneRatio w sc <= 1 /\
  (onGlobe sc -> 0 < sceneRatio w sc ->
   pixelSize (updateViewerParameters w sc vp) = 1000 * sceneRatio w sc).
Proof.
  intros Hb.
  assert (Hle : sceneRatio w sc <= 1) by (now apply visibleRatio_le_1).
  split; [exact Hle |].
  intros Hon Hpos. rewrite (pixelSize_onGlobe _ _ _ Hon).
  destruct (Rgt_dec (1000 * sceneRatio w sc) 0) as [_ | Hn]; [| lra].
  rewrite (Rmin_right 1000) by lra. apply Rmax_right. lra.
Qed.

Lemma pixelSize_is_scaled_ratio_witness :
  pixelSize (updateViewerParameters shearField narrowView (initialViewerParameters SCENE3D))
  = 1000 * 0.22.
Proof.
  destruct (pixelSize_is_scaled_ratio shearField narrowView (initialViewerParameters SCENE3D)
              shearField_validBounds) as [_ H].
  rewrite <- narrowView_ratio. apply H.
  - apply viewOf_onGlobe.
  - rewrite narrowView_ratio. lra.
Defined.

(** X10.  When the visible rectangle covers the field, the two ranges are
    the bounds of the field, the buffer being clamped away, and the pixel
    size is 1000. *)
Theorem full_view_gives_field_bounds
        (w : RequiredWindData) (sc : Scene) (vp : ViewerParameters) :
  validBounds (bounds w) -> onGlobe sc ->
  let b := bounds w in
  let acc := scanCorners (pickLonLat sc) (corners sc) cornerInit in
  minLon acc <= west b -> east b <= maxLon acc ->
  minLat acc <= south b -> north b <= maxLat acc ->
  lonRange (updateViewerParameters w sc vp) = Cartesian2.mk (west b) (east b) /\
  latRange (updateViewerParameters w sc vp) = Cartesian2.mk (south b) (north b) /\
  pixelSize (updateViewerParameters w sc vp) = 1000.
Proof.
  intros [Hlon Hlat] Hon b acc Hw He Hs Hn.
  assert (HL : visibleLonRange b acc = Cartesian2.mk (west b) (east b)).
  { unfold visibleLonRange, addBuffer, intersectRange. cbn [Cartesian2.x Cartesian2.y].
    fold b in Hlon. minmax. reflexivity. }
  assert (HA : visibleLatRange b acc = Cartesian2.mk (south b) (north b)).
  { unfold visibleLatRange, addBuffer, intersectRange. cbn [Cartesian2.x Cartesian2.y].
    fold b in Hlat. minmax. reflexivity. }
  assert (HR : sceneRatio w sc = 1).
  { unfold sceneRatio. fold b. fold acc. rewrite HL, HA.
    unfold visibleRatio. cbn [Cartesian2.x Cartesian2.y].
    fold b in Hlon, Hlat.
    replace ((east b - west b) / (east b - west b)) with 1 by (field; lra).
    replace ((north b - south b) / (north b - south b)) with 1 by (field; lra).
    apply Rmin_left. lra. }
  rewrite (pixelSize_onGlobe _ _ _ Hon), HR.
  rewrite (updateViewerParameters_onGlobe _ _ _ Hon).
  cbn [lonRange latRange onGlobeUpdate]. fold b. fold acc.
  split; [exact HL |]. split; [exact HA |].
  destruct (Rgt_dec (1000 * 1) 0) as [_ | Hneg]; [| lra]. minmax. lra.
Qed.

Lemma full_view_gives_field_bounds_witness :
  lonRange (updateViewerParameters shearField wideView (initialViewerParameters SCENE3D))
  = Cartesian2.mk 0 10 /\
  pixelSize (updateViewerParameters shearField wideView (initialViewerParameters SCENE3D))
  = 1000.
Proof.
  destruct (full_view_gives_field_bounds shearField wideView (initialViewerParameters SCENE3D)
              shearField_validBounds (viewOf_onGlobe _ _ _ _))
    as (Hl & _ & Hp);
    try (unfold wideView; rewrite viewOf_scan by lra; cbn; lra).
  split; [exact Hl | exact Hp].
Defined.

(** X11.  When the visible rectangle, widened by 5% of its width on each
    side, still fits in the field, each range is that widened rectangle, 1.1
    times as wide as what is visible, and the pixel size is 1000 times the
    smaller of the two widened fractions. *)
Theorem inner_view_is_widened
        (w : RequiredWindData) (sc : Scene) (vp : ViewerParameters) :
  validBounds (bounds w) -> onGlobe sc ->
  let b := bounds w in
  let acc := scanCorners (pickLonLat sc) (corners sc) cornerInit in
  let dlon := maxLon acc - minLon acc in
  let dlat := maxLat acc - minLat acc in
  0 < dlon -> 0 < dlat ->
  west b <= minLon acc - dlon * 0.05 -> maxLon acc + dlon * 0.05 <= east b ->
  south b <= minLat acc - dlat * 0.05 -> maxLat acc + dlat * 0.05 <= north b ->
  lonRange (updateViewerParameters w sc vp)
  = Cartesian2.mk (minLon acc - dlon * 0.05) (maxLon acc + dlon * 0.05) /\
  latRange (updateViewerParameters w sc vp)
  = Cartesian2.mk (minLat acc - dlat * 0.05) (maxLat acc + dlat * 0.05) /\
  pixelSize (updateViewerParameters w sc vp)
  = 1000 * Rmin (1.1 * dlon / (east b - west b)) (1.1 * dlat / (north b - south b)).
Proof.
  intros Hb Hon b acc dlon dlat Hdlon Hdlat Hw He Hs Hn.
  assert (HL : visibleLonRange b acc
               = Cartesian2.mk (minLon acc - dlon * 0.05) (maxLon acc + dlon * 0.05)).
  { unfold visibleLonRange, addBuffer, intersectRange. cbn [Cartesian2.x Cartesian2.y].
    subst dlon. minmax. reflexivity. }
  assert (HA : visibleLatRange b acc
               = Cartesian2.mk (minLat acc - dlat * 0.05) (maxLat acc + dlat * 0.05)).
  { unfold visibleLatRange, addBuffer, intersectRange. cbn [Cartesian2.x Cartesian2.y].
    subst dlat. minmax. reflexivity. }
  assert (HR : sceneRatio w sc
               = Rmin (1.1 * dlon / (east b - west b)) (1.1 * dlat / (north b - south b))).
  { unfold sceneRatio. fold b. fold acc. rewrite HL, HA.
    unfold visibleRatio. cbn [Cartesian2.x Cartesian2.y].
    destruct Hb as [Hlon Hlat]. fold b in Hlon, Hlat.
    replace (maxLon acc + dlon * 0.05 - (minLon acc - dlon * 0.05)) with (1.1 * dlon)
      by (subst dlon; lra).
    replace (maxLat acc + dlat * 0.05 - (minLat acc - dlat * 0.05)) with (1.1 * dlat)
      by (subst dlat; lra).
    reflexivity. }
  assert (Hpos : 0 < sceneRatio w sc).
  { rewrite HR. destruct Hb as [Hlon Hlat]. fold b in Hlon, Hlat.
    apply Rmin_glb_lt; apply Rdiv_lt_0_compat; lra. }
  assert (Hle : sceneRatio w sc <= 1) by (now apply visibleRatio_le_1).
  rewrite (pixelSize_onGlobe _ _ _ Hon).
  rewrite (updateViewerParameters_onGlobe _ _ _ Hon).
  cbn [lonRange latRange onGlobeUpdate]. fold b. fold acc.
  split; [exact HL |]. split; [exact HA |].
  destruct (Rgt_dec (1000 * sceneRatio w sc) 0) as [_ | Hneg]; [| lra].
  rewrite (Rmin_right 1000) by lra. rewrite Rmax_right by lra. now rewrite HR.
Qed.

Lemma inner_view_is_widened_witness :
  lonRange (updateViewerParameters shearField narrowView (initialViewerParameters SCENE3D))
  = Cartesian2.mk (4 - (6 - 4) * 0.05) (6 + (6 - 4) * 0.05).
Proof.
  destruct (inner_view_is_widened shearField narrowView (initialViewerParameters SCENE3D)
              shearField_validBounds (viewOf_onGlobe _ _ _ _))
    as (Hl & _);
    try (unfold narrowView; rewrite viewOf_scan by lra; cbn; lra).
  unfold narrowView in Hl. rewrite viewOf_scan in Hl by lra. exact Hl.
Defined.

(** X12.  From the viewer parameters of the constructor, along every
    sequence of recomputations, whatever the fields and the scenes, the pixel
    size stays positive and at most 1000: it is never set to zero. *)
Theorem pixelSize_stays_positive (ws : list (RequiredWindData * Scene)) (m : SceneMode) :
  let vp := fold_left (fun vp e => updateViewerParameters (fst e) (snd e) vp)
                      ws (initialViewerParameters m) in
  0 < pixelSize vp <= 1000.
Proof.
  cbn zeta.
  assert (H : 0 < pixelSize (initialViewerParameters m) <= 1000) by (cbn; lra).
  revert H. generalize (initialViewerParameters m).
  induction ws as [| e rest IH]; intros vp H; [exact H |].
  cbn [fold_left]. apply IH.
  unfold updateViewerParameters. cbn [pixelSize].
  destruct (isOutsideGlobe _); [exact H |].
  unfold onGlobeUpdate. cbn [pixelSize].
  destruct (Rgt_dec _ 0); [| exact H]. minmax_cases; lra.
Qed.

(** The variables of the loop over the corners bound every corner seen. *)
Lemma scanCorners_bounds (pick : Cartesian2.t -> option (R * R))
      (cs : list Cartesian2.t) (acc : CornerAcc) :
  (forall c, In c cs -> pick c <> None) ->
  let res := scanCorners pick cs acc in
  (minLon res <= minLon acc /\ maxLon acc <= maxLon res /\
   minLat res <= minLat acc /\ maxLat acc <= maxLat res) /\
  forall c, In c cs ->
            exists lon lat, pick c = Some (lon, lat) /\
                            minLon res <= lon <= maxLon res /\
                            minLat res <= lat <= maxLat res.
Proof.
  revert acc. induction cs as [| c rest IH]; intros acc Hall res.
  - split; [subst res; cbn; lra | intros c []].
  - subst res. cbn [scanCorners].
    destruct (pick c) as [[lon lat] |] eqn:E;
      [| exfalso; apply (Hall c); [now left | exact E]].
    match goal with
    | |- context [scanCorners pick rest ?a] =>
        destruct (IH a) as [(H1 & H2 & H3 & H4) Hrest];
        [intros c' Hc'; apply Hall; now right |]
    end.
    cbn [minLon maxLon minLat maxLat] in H1, H2, H3, H4.
    pose proof (Rmin_l (minLon acc) lon). pose proof (Rmin_r (minLon acc) lon).
    pose proof (Rmax_l (maxLon acc) lon). pose proof (Rmax_r (maxLon acc) lon).
    pose proof (Rmin_l (minLat acc) lat). pose proof (Rmin_r (minLat acc) lat).
    pose proof (Rmax_l (maxLat acc) lat). pose proof (Rmax_r (maxLat acc) lat).
    split; [repeat split; lra |].
    intros c' [<- | Hc'].
    + exists lon, lat. split; [exact E |]. split; split; lra.
    + now apply Hrest.
Qed.

(** X13.  When the four corners are on the globe, the rectangle that the
    loop over the corners computes contains the projection of every corner. *)
Theorem visible_rectangle_contains_corners (sc : Scene) :
  onGlobe sc ->
  let acc := scanCorners (pickLonLat sc) (corners sc) cornerInit in
  isOutsideGlobe acc = false /\
  forall c, In c (corners sc) ->
            exists lon lat, pickLonLat sc c = Some (lon, lat) /\
                            minLon acc <= lon <= maxLon acc /\
                            minLat acc <= lat <= maxLat acc.
Proof.
  intros Hon acc. split.
  - subst acc. now rewrite scanCorners_onGlobe.
  - exact (proj2 (scanCorners_bounds _ _ cornerInit Hon)).
Qed.

Lemma visible_rectangle_contains_corners_witness :
  exists lon lat,
    pickLonLat eastView (Cartesian2.mk 0 0) = Some (lon, lat) /\
    minLon (scanCorners (pickLonLat eastView) (corners eastView) cornerInit) <= lon.
Proof.
  destruct (visible_rectangle_contains_corners eastView (viewOf_onGlobe _ _ _ _))
    as [_ H].
  destruct (H (Cartesian2.mk 0 0)) as (lon & lat & Hp & Hlon & _).
  - cbn. auto.
  - exists lon, lat. split; [exact Hp | lra].
Defined.

(** ** The layer: subscriptions, updates, visibility and release *)

Section LayerFurther.

Import Layer.

Context {utils : Utils}.

Lemma eventType_eqb_eq (a b : WindLayerEventType) : eventType_eqb a b = true <-> a = b.
Proof. destruct a, b; cbn; split; intros H; try discriminate; reflexivity. Qed.

Lemma eventType_eqb_neq (a b : WindLayerEventType) : a <> b -> eventType_eqb a b = false.
Proof. destruct a, b; cbn; intros H; try reflexivity; contradiction. Qed.

Lemma getListeners_put_same (ty : WindLayerEventType) (cbs : list Callback)
      (m : list (WindLayerEventType * list Callback)) :
  getListeners ty (putListeners ty cbs m) = Some cbs.
Proof.
  induction m as [| [k old] rest IH]; cbn.
  - now rewrite (proj2 (eventType_eqb_eq ty ty) eq_refl).
  - destruct (eventType_eqb ty k) eqn:E; cbn; rewrite E; [reflexivity | exact IH].
Qed.

Lemma getListeners_put_other (ty ty' : WindLayerEventType) (cbs : list Callback)
      (m : list (WindLayerEventType * list Callback)) :
  ty' <> ty -> getListeners ty' (putListeners ty cbs m) = getListeners ty' m.
Proof.
  intros Hne. induction m as [| [k old] rest IH]; cbn.
  - now rewrite (eventType_eqb_neq ty' ty Hne).
  - destruct (eventType_eqb ty k) eqn:E; cbn.
    + apply eventType_eqb_eq in E. subst k.
      now rewrite (eventType_eqb_neq ty' ty Hne).
    + now rewrite IH.
Qed.

Lemma putListeners_same (ty : WindLayerEventType) (cbs : list Callback)
      (m : list (WindLayerEventType * list Callback)) :
  getListeners ty m = Some cbs -> putListeners ty cbs m = m.
Proof.
  induction m as [| [k old] rest IH]; cbn; [discriminate |].
  destruct (eventType_eqb ty k) eqn:E.
  - intros H. injection H as ->. reflexivity.
  - intros H. now rewrite IH.
Qed.

Lemma setAdd_In (cb : Callback) (cbs : list Callback) (c : Callback) :
  In c (setAdd cb cbs) <-> c = cb \/ In c cbs.
Proof.
  unfold setAdd. destruct (existsb (Nat.eqb cb) cbs) eqn:E.
  - apply existsb_exists in E. destruct E as (x & Hx & Heq).
    apply Nat.eqb_eq in Heq. subst x. split; [auto | intros [-> | H]; assumption].
  - rewrite in_app_iff. cbn. split; [intros [H | [H | []]]; auto | intros [H | H]; auto].
Qed.

Lemma setAdd_present (cb : Callback) (cbs : list Callback) :
  In cb cbs -> setAdd cb cbs = cbs.
Proof.
  intros H. unfold setAdd.
  replace (existsb (Nat.eqb cb) cbs) with true; [reflexivity |].
  symmetry. apply existsb_exists. exists cb. split; [exact H | apply Nat.eqb_refl].
Qed.

Lemma setAdd_NoDup (cb : Callback) (cbs : list Callback) :
  NoDup cbs -> NoDup (setAdd cb cbs).
Proof.
  intros H. unfold setAdd. destruct (existsb (Nat.eqb cb) cbs) eqn:E; [exact H |].
  apply NoDup_app; [exact H | repeat constructor; intros [] |].
  intros x Hx [Heq | []].
  assert (T : existsb (Nat.eqb cb) cbs = true)
    by (apply existsb_exists; exists x; split; [exact Hx | subst x; apply Nat.eqb_refl]).
  congruence.
Qed.

Lemma setDelete_In (cb : Callback) (cbs : list Callback) (c : Callback) :
  In c (setDelete cb cbs) <-> c <> cb /\ In c cbs.
Proof.
  unfold setDelete. rewrite filter_In, negb_true_iff, Nat.eqb_neq.
  split; intros [H1 H2]; split; auto.
Qed.

Lemma subscribers_add (ty ty' : WindLayerEventType) (cb : Callback) (s : t) :
  subscribers ty' (addEventListener ty cb s)
  = if eventType_eqb ty' ty then setAdd cb (subscribers ty s) else subscribers ty' s.
Proof.
  unfold addEventListener, subscribers.
  destruct (getListeners ty (eventListeners s)) as [cbs |] eqn:E.
  - rewrite E. cbn [eventListeners setEventListeners].
    destruct (eventType_eqb ty' ty) eqn:Et.
    + apply eventType_eqb_eq in Et. subst ty'. now rewrite getListeners_put_same.
    + rewrite getListeners_put_other; [reflexivity |].
      intros ->. now rewrite (proj2 (eventType_eqb_eq ty ty) eq_refl) in Et.
  - rewrite getListeners_put_same. cbn [eventListeners setEventListeners].
    destruct (eventType_eqb ty' ty) eqn:Et.
    + apply eventType_eqb_eq in Et. subst ty'. now rewrite getListeners_put_same.
    + assert (Hne : ty' <> ty)
        by (intros ->; now rewrite (proj2 (eventType_eqb_eq ty ty) eq_refl) in Et).
      now rewrite !getListeners_put_other.
Qed.

Lemma subscribers_remove (ty ty' : WindLayerEventType) (cb : Callback) (s : t) :
  subscribers ty' (removeEventListener ty cb s)
  = if eventType_eqb ty' ty then setDelete cb (subscribers ty s) else subscribers ty' s.
Proof.
  unfold removeEventListener, subscribers.
  destruct (getListeners ty (eventListeners s)) as [cbs |] eqn:E.
  - cbn [eventListeners setEventListeners].
    destruct (eventType_eqb ty' ty) eqn:Et.
    + apply eventType_eqb_eq in Et. subst ty'. now rewrite getListeners_put_same.
    + rewrite getListeners_put_other; [reflexivity |].
      intros ->. now rewrite (proj2 (eventType_eqb_eq ty ty) eq_refl) in Et.
  - destruct (eventType_eqb ty' ty) eqn:Et; [| reflexivity].
    apply eventType_eqb_eq in Et. subst ty'. now rewrite E.
Qed.

(** X14.  [addEventListener] subscribes the callback to its kind of event:
    the callback is among the subscribers afterwards, the callbacks that were
    subscribed still are, none appears twice, the subscribers of the other
    kind are the same, and subscribing again changes nothing. *)
Theorem addEventListener_subscribes (ty : WindLayerEventType) (cb : Callback) (s : t) :
  let s' := addEventListener ty cb s in
  In cb (subscribers ty s') /\
  (forall c, In c (subscribers ty s') <-> c = cb \/ In c (subscribers ty s)) /\
  (NoDup (subscribers ty s) -> NoDup (subscribers ty s')) /\
  (forall ty', ty' <> ty -> subscribers ty' s' = subscribers ty' s) /\
  addEventListener ty cb s' = s'.
Proof.
  intros s'.
  assert (Hs : subscribers ty s' = setAdd cb (subscribers ty s)).
  { subst s'. rewrite subscribers_add.
    now rewrite (proj2 (eventType_eqb_eq ty ty) eq_refl). }
  split; [rewrite Hs; apply setAdd_In; now left |].
  split; [intros c; rewrite Hs; apply setAdd_In |].
  split; [intros Hnd; rewrite Hs; now apply setAdd_NoDup |].
  split.
  - intros ty' Hne. subst s'. rewrite subscribers_add.
    now rewrite (eventType_eqb_neq ty' ty Hne).
  - assert (Hg : getListeners ty (eventListeners s') = Some (setAdd cb (subscribers ty s))).
    { subst s'. unfold addEventListener, subscribers.
      destruct (getListeners ty (eventListeners s)) as [cbs |] eqn:E.
      - rewrite E. cbn [eventListeners setEventListeners]. apply getListeners_put_same.
      - rewrite getListeners_put_same. cbn [eventListeners setEventListeners].
        apply getListeners_put_same. }
    unfold addEventListener at 1. rewrite Hg. cbn beta iota zeta. rewrite Hg.
    rewrite (setAdd_present cb (setAdd cb (subscribers ty s)))
      by (apply setAdd_In; now left).
    rewrite (putListeners_same _ _ _ Hg).
    destruct s'; reflexivity.
Qed.

(** X15.  [removeEventListener] unsubscribes the callback from its kind of
    event and from nothing else: it is not among the subscribers afterwards,
    the other callbacks and the subscribers of the other kind are the same;
    for a kind that nobody subscribed to, the layer is unchanged. *)
Theorem removeEventListener_unsubscribes (ty : WindLayerEventType) (cb : Callback) (s : t) :
  let s' := removeEventListener ty cb s in
  ~ In cb (subscribers ty s') /\
  (forall c, c <> cb -> (In c (subscribers ty s') <-> In c (subscribers ty s))) /\
  (forall ty', ty' <> ty -> subscribers ty' s' = subscribers ty' s) /\
  (getListeners ty (eventListeners s) = None -> s' = s).
Proof.
  intros s'.
  assert (Hs : subscribers ty s' = setDelete cb (subscribers ty s)).
  { subst s'. rewrite subscribers_remove.
    now rewrite (proj2 (eventType_eqb_eq ty ty) eq_refl). }
  split; [rewrite Hs, setDelete_In; intros [H _]; now apply H |].
  split; [intros c Hc; rewrite Hs, setDelete_In; tauto |].
  split.
  - intros ty' Hne. subst s'. rewrite subscribers_remove.
    now rewrite (eventType_eqb_neq ty' ty Hne).
  - intros Hnone. subst s'. unfold removeEventListener. now rewrite Hnone.
Qed.

(** *** What a call writes *)

(** A sequence of calls to the host leaves the fields of the layer. *)
Lemma fold_withHost {B : Type} (g : B -> Host -> Host) (l : list B) (s : t) :
  fold_left (fun st x => withHost (g x) st) l s
  = withHost (fun h => fold_left (fun h x => g x h) l h) s.
Proof.
  revert s. induction l as [| x rest IH]; intros s; [destruct s; reflexivity |].
  cbn [fold_left]. rewrite IH. destruct s; reflexivity.
Qed.

Lemma fold_emit {B : Type} (e : B -> Effect) (l : list B) (h : Host) :
  fold_left (fun h x => emit (e x) h) l h
  = mkHost (scene h) (percentageChanged h) (cameraChanged h) (morphComplete h)
           (windowResize h) (scenePrimitives h) (getPrimitives h) (bindCount h)
           (trace h ++ map e l).
Proof.
  revert h. induction l as [| x rest IH]; intros h.
  - cbn. rewrite app_nil_r. destruct h; reflexivity.
  - cbn [fold_left map]. rewrite IH. unfold emit. cbn. now rewrite <- app_assoc.
Qed.

Lemma dispatchEvent_spec (ty : WindLayerEventType) (data : Payload) (s : t) :
  dispatchEvent ty data s
  = withHost (fun h => mkHost (scene h) (percentageChanged h) (cameraChanged h)
                              (morphComplete h) (windowResize h) (scenePrimitives h)
                              (getPrimitives h) (bindCount h)
                              (trace h ++ map (fun cb => Notified cb data) (subscribers ty s)))
             s.
Proof.
  unfold dispatchEvent, subscribers.
  destruct (getListeners ty (eventListeners s)) as [cbs |].
  - rewrite fold_withHost. unfold withHost. now rewrite fold_emit.
  - unfold withHost. cbn [map]. rewrite app_nil_r.
    destruct s as [a b c d e f g h]; destruct h; reflexivity.
Qed.

(** X16.  On a layer that is not destroyed, [updateWindData] stores the
    normalised field, hands it to the particle system, asks for a render and
    then calls each subscriber of [dataChange] once, in order, with the
    normalised field; the subscribers of [optionsChange] are not called, and
    the options, the viewer parameters and the subscriptions are the same. *)
Theorem updateWindData_notifies (data : WindData) (s : t) :
  _isDestroyed s = false ->
  let s' := updateWindData data s in
  let d := processWindData data in
  windData s' = d /\
  trace (host s')
  = trace (host s)
      ++ [EngineUpdateWindData d; RequestRender]
      ++ map (fun cb => Notified cb (DataPayload d)) (subscribers dataChange s) /\
  options s' = options s /\ viewerParameters s' = viewerParameters s /\
  eventListeners s' = eventListeners s /\ _isDestroyed s' = false.
Proof.
  intros Hlive s' d. subst s'. unfold updateWindData. rewrite Hlive.
  rewrite dispatchEvent_spec. cbn. rewrite <- !app_assoc. cbn.
  repeat split; try reflexivity. exact Hlive.
Qed.

(** X17.  On a layer that is not destroyed, [updateOptions] stores the
    options merged by [deepMerge], hands the partial options to the particle
    system, asks for a render and then calls each subscriber of
    [optionsChange] once, in order, with the merged options; the field, the
    viewer parameters and the subscriptions are the same. *)
Theorem updateOptions_notifies (opts : PartialOptions) (s : t) :
  _isDestroyed s = false ->
  let s' := updateOptions opts s in
  let o := deepMerge opts (options s) in
  options s' = o /\
  trace (host s')
  = trace (host s)
      ++ [EngineChangeOptions opts; RequestRender]
      ++ map (fun cb => Notified cb (OptionsPayload o)) (subscribers optionsChange s) /\
  windData s' = windData s /\ viewerParameters s' = viewerParameters s /\
  eventListeners s' = eventListeners s /\ _isDestroyed s' = false.
Proof.
  intros Hlive s' o. subst s'. unfold updateOptions. rewrite Hlive.
  rewrite dispatchEvent_spec. cbn. rewrite <- !app_assoc. cbn.
  repeat split; try reflexivity. exact Hlive.
Qed.

(** X18.  Setting [show] to the value it has changes nothing and touches no
    primitive; setting it to the other value stores it and sets the
    visibility of each primitive of the layer once, in order.  In both cases
    a second assignment of the same value changes nothing. *)
Theorem show_setter_touches_primitives_once (value : bool) (s : t) :
  let s' := setShowProperty value s in
  _show s' = value /\
  (_show s = value -> s' = s) /\
  (_show s <> value ->
   trace (host s') = trace (host s) ++ map (fun p => PrimitiveShow p value) (primitives s)) /\
  setShowProperty value s' = s'.
Proof.
  intros s'. subst s'. unfold setShowProperty.
  destruct (Bool.eqb (_show s) value) eqn:E.
  - apply Bool.eqb_prop in E. rewrite E.
    repeat split; try reflexivity.
    + intros Hne. contradiction.
    + now rewrite Bool.eqb_reflx.
  - apply Bool.eqb_false_iff in E.
    unfold updatePrimitivesVisibility. rewrite fold_withHost. unfold withHost.
    cbn beta. rewrite fold_emit.
    cbn. repeat split.
    + intros Heq. contradiction.
    + now rewrite Bool.eqb_reflx.
Qed.
(** *** Drawable objects *)

Lemma removePrimitive_app_absent (p : Primitive) (l ps : list Primitive) :
  ~ In p l -> removePrimitive p (l ++ ps) = l ++ removePrimitive p ps.
Proof.
  induction l as [| q rest IH]; intros H; [reflexivity |].
  cbn [app removePrimitive]. destruct (Nat.eqb p q) eqn:E.
  - apply Nat.eqb_eq in E. subst q. exfalso. apply H. now left.
  - rewrite IH; [reflexivity |]. intros Hin. apply H. now right.
Qed.

Lemma remove_added (l ps : list Primitive) :
  (forall p, In p ps -> ~ In p l) ->
  fold_left (fun acc p => removePrimitive p acc) ps (l ++ ps) = l.
Proof.
  induction ps as [| p rest IH]; intros H; [cbn; apply app_nil_r |].
  cbn [fold_left]. rewrite removePrimitive_app_absent by (apply H; now left).
  cbn [removePrimitive]. rewrite Nat.eqb_refl. apply IH.
  intros q Hq. apply H. now right.
Qed.

(** X19.  [add] attaches the primitives of the particle system to the
    scene, after the ones that were there, and remembers them; when none of
    them was in the scene before, [remove] after [add] gives the scene its
    primitives back and leaves the layer without any.  [remove] on a layer
    without primitives changes nothing. *)
Theorem add_then_remove_restores_scene (s : t) :
  (forall p, In p (getPrimitives (host s)) -> ~ In p (scenePrimitives (host s))) ->
  primitives (add s) = getPrimitives (host s) /\
  scenePrimitives (host (add s)) = scenePrimitives (host s) ++ getPrimitives (host s) /\
  scenePrimitives (host (remove (add s))) = scenePrimitives (host s) /\
  primitives (remove (add s)) = [] /\
  remove (remove (add s)) = remove (add s).
Proof.
  intros Hnew. split; [reflexivity |]. split; [reflexivity |].
  split; [| split; reflexivity].
  unfold remove, add. cbn. now apply remove_added.
Qed.

(** X20.  [destroy] after the constructor releases what the constructor
    took from the scene: when the primitives of the particle system were not
    in the scene before, the scene has the primitives it had, the layer has
    none, no subscriber is left, and the particle system was created and
    destroyed once each. *)
Theorem destroy_releases_scene (h : Host) (data : WindData) (opts : PartialOptions) :
  (forall p, In p (getPrimitives h) -> ~ In p (scenePrimitives h)) ->
  let s := constructor h data opts in
  scenePrimitives (host s) = scenePrimitives h ++ getPrimitives h /\
  _isDestroyed s = false /\
  scenePrimitives (host (destroy s)) = scenePrimitives h /\
  primitives (destroy s) = [] /\
  eventListeners (destroy s) = [] /\
  _isDestroyed (destroy s) = true /\
  trace (host (destroy s))
  = trace h ++ [EngineNew (windData s) (options s) (viewerParameters s); EngineDestroy].
Proof.
  intros Hnew s.
  split; [reflexivity |]. split; [reflexivity |].
  split; [| repeat split].
  - change (scenePrimitives (host (destroy s)))
      with (fold_left (fun acc p => removePrimitive p acc) (getPrimitives h)
                      (scenePrimitives h ++ getPrimitives h)).
    now apply remove_added.
  - change (trace (host (destroy s)))
      with ((trace h ++ [EngineNew (windData s) (options s) (viewerParameters s)])
              ++ [EngineDestroy]).
    now rewrite <- app_assoc.
Qed.

(** *** After destroy *)

Lemma others_do_nothing (l : list Listener) (s : t) :
  forallb isOther l = true ->
  fold_left (fun st f => match f with
                         | Bound _ => updateViewerParameters st
                         | Other _ => st
                         end) l s = s.
Proof.
  revert s. induction l as [| f rest IH]; intros s H; [reflexivity |].
  cbn [forallb] in H. apply andb_true_iff in H. destruct H as [Hf Hrest].
  destruct f as [n | n]; [discriminate |]. cbn [fold_left]. now apply IH.
Qed.

Lemma others_hold_no_bound (l : list Listener) (n : nat) :
  forallb isOther l = true -> ~ In (Bound n) l.
Proof.
  intros H Hin. rewrite forallb_forall in H. specialize (H _ Hin). discriminate.
Qed.

Lemma updateViewerParameters_writes (s : t) :
  let vp := Viewport.updateViewerParameters (windData s) (scene (host s)) (viewerParameters s) in
  _isDestroyed (updateViewerParameters s) = _isDestroyed s /\
  viewerParameters (updateViewerParameters s) = vp /\
  trace (host (updateViewerParameters s)) = trace (host s) ++ [EngineApplyViewerParameters vp].
Proof. destruct s as [a b c d e f g h]. destruct h. repeat split. Qed.

(** A camera change when the layer holds the last registration and the
    others belong to the application. *)
Lemma fireCameraChanged_once (sc : Scene) (s : t) (l : list Listener) (n : nat) :
  cameraChanged (host s) = l ++ [Bound n] -> forallb isOther l = true ->
  fireCameraChanged sc s = updateViewerParameters (withHost (setScene sc) s).
Proof.
  intros Hc Hl. unfold fireCameraChanged.
  replace (cameraChanged (host (withHost (setScene sc) s))) with (l ++ [Bound n])
    by (rewrite <- Hc; destruct s as [a b c d e f g h]; destruct h; reflexivity).
  rewrite fold_left_app, (others_do_nothing _ _ Hl). reflexivity.
Qed.

(** X21.  The handler of the camera has no test of the destroyed flag, and
    [destroy] leaves it registered.  In a host whose camera had listeners of
    the rest of the application only, a move of the camera after [destroy]
    still recomputes the viewer parameters of the destroyed layer, once, and
    hands them to the particle system that [destroy] has destroyed. *)
Theorem destroyed_layer_still_follows_camera
        (h : Host) (data : WindData) (opts : PartialOptions) (sc : Scene) :
  forallb isOther (cameraChanged h) = true ->
  let s := destroy (constructor h data opts) in
  let s' := fireCameraChanged sc s in
  let vp := Viewport.updateViewerParameters (windData s) sc (viewerParameters s) in
  isDestroyed s = true /\
  isDestroyed s' = true /\
  viewerParameters s' = vp /\
  trace (host s') = trace (host s) ++ [EngineApplyViewerParameters vp].
Proof.
  intros Hothers s.
  destruct (constructor_registers h data opts) as (Hc & _ & _ & Hn).
  destruct (destroy_unregisters (constructor h data opts)) as (Hc' & _).
  cbn zeta in Hc, Hn, Hc'. fold s in Hc'. rewrite Hn, Hc in Hc'.
  rewrite removeListener_absent in Hc'.
  2:{ apply not_in_snoc; [now apply others_hold_no_bound |].
      intros E. injection E. lia. }
  assert (Hd : _isDestroyed s = true) by apply destroy_isDestroyed.
  clearbody s. intros s' vp. subst s' vp.
  rewrite (fireCameraChanged_once sc s _ _ Hc' Hothers).
  destruct (updateViewerParameters_writes (withHost (setScene sc) s)) as (W1 & W2 & W3).
  unfold isDestroyed. rewrite W1, W2, W3.
  destruct s as [a b c d e f g hh]. destruct hh. cbn in Hd |- *. auto.
Qed.

(** *** The state machine *)

Lemma fold_keeps {B : Type} (f : t -> B -> t) (l : list B) (s : t) :
  (forall st b, _isDestroyed (f st b) = _isDestroyed st /\ windData (f st b) = windData st) ->
  _isDestroyed (fold_left f l s) = _isDestroyed s /\
  windData (fold_left f l s) = windData s.
Proof.
  intros Hf. revert s. induction l as [| b rest IH]; intros s; [split; reflexivity |].
  cbn [fold_left]. destruct (IH (f s b)) as [H1 H2]. destruct (Hf s b) as [H3 H4].
  split; congruence.
Qed.

(** What a call does to the destroyed flag and to the field. *)
Lemma step_flag_and_field (s : t) (c : Call) :
  _isDestroyed (step s c) = _isDestroyed s || isDestroyCall c /\
  (windData (step s c) = windData s \/
   exists data, windData (step s c) = processWindData data).
Proof.
  destruct c; cbn [step isDestroyCall]; rewrite ?orb_false_r, ?orb_true_r.
  - unfold updateWindData. destruct (_isDestroyed s) eqn:E; [split; auto |].
    rewrite dispatchEvent_spec. cbn. split; [exact E | right; now exists data].
  - unfold updateOptions. destruct (_isDestroyed s) eqn:E; [split; auto |].
    rewrite dispatchEvent_spec. cbn. split; [exact E | now left].
  - unfold setShowProperty. destruct (Bool.eqb (_show s) value); [split; auto |].
    unfold updatePrimitivesVisibility. rewrite fold_withHost. cbn. split; auto.
  - split; auto.
  - split; auto.
  - split; auto.
  - split; auto.
  - unfold addEventListener.
    destruct (getListeners ty _); [| destruct (getListeners ty _)]; split; auto.
  - unfold removeEventListener. destruct (getListeners ty _); split; auto.
  - unfold fireCameraChanged.
    match goal with
    | |- context [fold_left ?f ?l ?a] => destruct (fold_keeps f l a) as [H1 H2]
    end.
    + intros st [n | n]; split; reflexivity.
    + rewrite H1, H2. split; auto.
Qed.

(** X22.  The layer is destroyed exactly from the first call of [destroy]
    on: after any sequence of calls, [isDestroyed] answers true when the
    layer was destroyed before the sequence or the sequence holds a call of
    [destroy], and false otherwise. *)
Theorem destroyed_iff_destroy_called (cs : list Call) (s : t) :
  isDestroyed (run cs s) = _isDestroyed s || existsb isDestroyCall cs.
Proof.
  unfold isDestroyed, run. revert s.
  induction cs as [| c rest IH]; intros s; [cbn; now rewrite orb_false_r |].
  cbn [fold_left existsb]. rewrite IH, (proj1 (step_flag_and_field s c)).
  now rewrite orb_assoc.
Qed.

Lemma processWindData_is_complete (w : WindData) : complete (asWindData (processWindData w)).
Proof.
  unfold complete, asWindData, processWindData. cbn [speed mask].
  assert (Hs : exists a b, min (processSpeed w) = Some a /\ max (processSpeed w) = Some b).
  { unfold processSpeed. destruct (speed w) as [s |] eqn:Es.
    - unfold speedIncomplete. rewrite Es.
      destruct (min s) eqn:E1, (max s) eqn:E2; cbn; eauto.
    - cbn. eauto. }
  assert (Hm : exists a b, min (processMask w) = Some a /\ max (processMask w) = Some b).
  { unfold processMask. destruct (mask w) as [m |] eqn:Em.
    - destruct (min m) eqn:E1, (max m) eqn:E2; cbn; eauto.
    - cbn. eauto. }
  destruct Hs as (a & b & Ha & Hb), Hm as (c & d & Hc & Hd).
  exists (processSpeed w), (processMask w), a, b, c, d.
  repeat split; assumption.
Qed.

(** X23.  The field of a layer is always a normalised one: after the
    constructor and any sequence of calls, its speed axis and its mask axis
    carry their minimum and their maximum. *)
Theorem layer_field_is_normalised
        (h : Host) (data : WindData) (opts : PartialOptions) (cs : list Call) :
  complete (asWindData (windData (run cs (constructor h data opts)))).
Proof.
  assert (H : exists d, windData (run cs (constructor h data opts)) = processWindData d).
  { unfold run.
    apply (fold_left_invariant (fun st => exists d, windData st = processWindData d)).
    - intros st c [d Hd]. destruct (proj2 (step_flag_and_field st c)) as [E | [d' E]].
      + exists d. congruence.
      + now exists d'.
    - now exists data. }
  destruct H as [d ->]. apply processWindData_is_complete.
Qed.

End LayerFurther.

Lemma updateWindData_notifies_witness :
  Layer.trace
    (Layer.host
       (Layer.updateWindData calmField
          (Layer.addEventListener Layer.dataChange 5%nat
             (Layer.constructor emptyHost gustField noOptions))))
  = Layer.trace (Layer.host (Layer.constructor emptyHost gustField noOptions))
      ++ [Layer.EngineUpdateWindData (processWindData calmField); Layer.RequestRender;
          Layer.Notified 5%nat (Layer.DataPayload (processWindData calmField))].
Proof.
  destruct (updateWindData_notifies calmField
              (Layer.addEventListener Layer.dataChange 5%nat
                 (Layer.constructor emptyHost gustField noOptions)) eq_refl)
    as (_ & Ht & _).
  exact Ht.
Defined.

Lemma updateOptions_notifies_witness :
  Layer.options
    (@Layer.updateOptions overrideUtils noOptions
       (Layer.constructor emptyHost gustField noOptions))
  = spread (spread DefaultOptions noOptions) noOptions.
Proof.
  destruct (@updateOptions_notifies overrideUtils noOptions
              (Layer.constructor emptyHost gustField noOptions) eq_refl)
    as (Ho & _).
  exact Ho.
Defined.

Lemma busyHost_primitives_new :
  forall p, In p (Layer.getPrimitives busyHost) -> ~ In p (Layer.scenePrimitives busyHost).
Proof.
  intros p Hp Hs. cbn in Hp, Hs.
  destruct Hp as [<- | [<- | []]]; destruct Hs as [E | [E | []]]; discriminate.
Qed.

Lemma add_then_remove_restores_scene_witness :
  Layer.scenePrimitives (Layer.host (Layer.add detachedLayer)) = [1; 2; 7; 8]%nat /\
  Layer.scenePrimitives (Layer.host (Layer.remove (Layer.add detachedLayer))) = [1; 2]%nat.
Proof.
  destruct (add_then_remove_restores_scene detachedLayer busyHost_primitives_new)
    as (_ & Hadd & Hrem & _).
  split; [exact Hadd | exact Hrem].
Defined.

Lemma destroy_releases_scene_witness :
  Layer.scenePrimitives
    (Layer.host (Layer.destroy (Layer.constructor busyHost gustField noOptions)))
  = [1; 2]%nat.
Proof.
  destruct (destroy_releases_scene busyHost gustField noOptions busyHost_primitives_new)
    as (_ & _ & Hrel & _).
  exact Hrel.
Defined.

Lemma destroyed_layer_still_follows_camera_witness :
  Layer.isDestroyed
    (Layer.fireCameraChanged wideView
       (Layer.destroy (Layer.constructor busyHost gustField noOptions))) = true /\
  sceneMode
    (Layer.viewerParameters
       (Layer.fireCameraChanged horizonView
          (Layer.destroy (Layer.constructor busyHost gustField noOptions))))
  = COLUMBUS_VIEW.
Proof.
  destruct (destroyed_layer_still_follows_camera busyHost gustField noOptions wideView eq_refl)
    as (_ & Hd & _).
  destruct (destroyed_layer_still_follows_camera busyHost gustField noOptions horizonView
              eq_refl) as (_ & _ & Hvp & _).
  split; [exact Hd |]. rewrite Hvp. reflexivity.
Defined.
